(** * ixmp_server_workflow.timeseries: validators of timeseries data

    A shallow embedding of [ixmp_server_workflow/timeseries.py].  The
    validators read a dataframe and a parsed configuration, write to the
    module logger and return a boolean.  The logger is modelled as a writer
    effect ([Logged]); the dataframe is the list of its rows, restricted to
    the five columns the validators read. *)

From Stdlib Require Import List String Ascii ZArith Bool Lia Permutation.
From Stdlib Require Import DecimalString.
Import ListNotations.
Open Scope string_scope.

(** ** The logging channel *)

Module Logging.

(** The levels of [logging] that the module uses. *)
Inductive level : Set := DEBUG | WARNING | ERROR.

(** One call of [log.log(level, msg)]. *)
Definition record : Set := (level * string)%type.

(** A computation that writes to the logger: its value and the records
    it emitted, oldest first. *)
Definition Logged (A : Type) : Type := (A * list record)%type.

Definition ret {A} (a : A) : Logged A := (a, []).

Definition bind {A B} (m : Logged A) (k : A -> Logged B) : Logged B :=
  let (b, out) := k (fst m) in (b, (snd m ++ out)%list).

Definition log (lvl : level) (msg : string) : Logged unit :=
  (tt, [(lvl, msg)]).

(** [for x in xs: body], the body updating the loop-carried variables. *)
Fixpoint for_each {A S} (xs : list A) (body : A -> S -> Logged S) (s : S)
  : Logged S :=
  match xs with
  | [] => ret s
  | x :: rest => bind (body x s) (for_each rest body)
  end.

End Logging.
Import Logging.

Declare Scope logged_scope.
Delimit Scope logged_scope with logged.
Notation "x <- m ;; k" := (bind m (fun x => k))
  (at level 61, m at next level, right associativity) : logged_scope.
Notation "m ;; k" := (bind m (fun _ => k))
  (at level 61, right associativity) : logged_scope.
Open Scope logged_scope.

(** ** Python and pandas primitives *)

Module Py.

(** [sep.join(parts)] *)
Definition join (sep : string) (parts : list string) : string :=
  String.concat sep parts.

(** [s.endswith(suffix)] *)
Definition endswith (s suffix : string) : bool :=
  let n := String.length s in
  let m := String.length suffix in
  (m <=? n)%nat && (substring (n - m) m s =? suffix).

(** [sub in s] on strings. *)
Fixpoint contains (sub s : string) : bool :=
  if prefix sub s then true
  else match s with
       | EmptyString => false
       | String _ rest => contains sub rest
       end.

(** [str(n)] for an [int]. *)
Definition str_of_int (n : Z) : string :=
  NilZero.string_of_int (Z.to_int n).

(** [xs[:stop]]: a negative [stop] counts from the end of the list. *)
Definition slice_to {A} (xs : list A) (stop : Z) : list A :=
  if (stop <? 0)%Z
  then firstn (Z.to_nat (Z.of_nat (List.length xs) + stop)) xs
  else firstn (Z.to_nat stop) xs.

(** [x in xs] *)
Definition mem (x : string) (xs : list string) : bool :=
  existsb (String.eqb x) xs.

(** [Series.unique()]: the distinct values in order of first appearance. *)
Fixpoint unique (xs : list string) : list string :=
  match xs with
  | [] => []
  | x :: rest => x :: filter (fun y => negb (y =? x)) (unique rest)
  end.

(** A [set] of strings, kept as the list of its distinct members. *)
Definition set_of (xs : list string) : list string := unique xs.

(** [a - b] and [a.difference(b)] on sets. *)
Definition set_diff (a b : list string) : list string :=
  filter (fun x => negb (mem x b)) a.

(** A [dict] with string keys, in insertion order. *)
Definition dict (V : Type) : Type := list (string * V).

Definition keys {V} (d : dict V) : list string := map fst d.

(** [d.get(k)] *)
Fixpoint dict_get {V} (d : dict V) (k : string) : option V :=
  match d with
  | [] => None
  | (k', v) :: rest => if k' =? k then Some v else dict_get rest k
  end.

(** The double-quote character, for messages that quote a name. *)
Definition dquote : string := String "034"%char EmptyString.

End Py.
Import Py.

(** ** Data model *)

(** A row of the timeseries dataframe.  Further columns (the yearly values)
    are never read by the validators. *)
Module Col.
Record row : Set := mk_row {
  model : string;
  scenario : string;
  region : string;
  variable : string;
  unit : string
}.
End Col.
Definition DataFrame : Set := list Col.row.

(** An entry of the variable configuration: [{unit: ..., required: ...}],
    the key [required] being optional. *)
Module Cfg.
Record entry : Set := mk_entry {
  unit : string;
  required : option bool
}.
End Cfg.
Definition VariableConfig : Type := dict Cfg.entry.

(** A value of a parsed YAML mapping that the code never inspects. *)
Inductive yaml_value : Set :=
| YNull
| YScalar (s : string)
| YList (items : list string).

(** A region-mapping document as [yaml.load] returns it.  Every file of the
    directory with a recognised extension is taken to parse to a mapping that
    holds the keys [native_regions] and [region_aggregation], each a mapping
    itself, as the format of these files requires; the code indexes both
    without a check.  The key [model] is read with [.get], so it may be absent
    (or hold something that is not the name of a model): [None]. *)
Module Doc.
Record region_mapping : Type := mk_region_mapping {
  model : option string;
  native_regions : dict yaml_value;
  region_aggregation : dict yaml_value
}.
End Doc.

(** The part of the file system that [get_region_mapping] reads: for a path,
    [None] when [os.path.isdir] is false, otherwise the entries in the order
    of [os.listdir], each with the document its file parses to (only files
    with a recognised extension are ever opened). *)
Definition directory : Type := list (string * Doc.region_mapping).
Definition filesystem : Type := string -> option directory.

(** Modelled from the spec: the exception class [IxmpServerWorkflowError]
    of [errors.py], which is not among the sources.  The spec names it the
    configuration error, "a distinguished error kind carrying a descriptive
    message"; [str(err)] is that message. *)
Inductive exn : Set :=
| IxmpServerWorkflowError (msg : string).

Definition exn_str (e : exn) : string :=
  match e with IxmpServerWorkflowError msg => msg end.

(** The outcome of a call that may raise. *)
Inductive outcome (A : Type) : Type :=
| Return (a : A)
| Raise (e : exn).
Arguments Return {A} a.
Arguments Raise {A} e.

(** ** timeseries.py *)

(** The default of the keyword argument [limit]. *)
Definition default_limit : Z := 100.

Definition log_validation_errors (message : string) (errors : list string)
    (lvl : level) (limit : Z) : Logged unit :=
  log lvl (message ++ ":") ;;
  for_each (slice_to errors limit)
           (fun error _ => log lvl ("- " ++ error)) tt ;;
  if (Z.of_nat (List.length errors) >? limit)%Z
  then log lvl ("and " ++ str_of_int (Z.of_nat (List.length errors) - limit)
                       ++ " more...")
  else ret tt.

(** [get_region_mapping]: the loop over [os.listdir], leaving at the first
    document whose [model] is the requested one. *)
Fixpoint search_region_mapping (entries : directory) (model : string)
  : option Doc.region_mapping :=
  match entries with
  | [] => None
  | (filename, region_mapping) :: rest =>
      if endswith filename ".yaml" || endswith filename ".yml" then
        if match Doc.model region_mapping with
           | Some m => m =? model
           | None => false
           end
        then Some region_mapping
        else search_region_mapping rest model
      else search_region_mapping rest model
  end.

Definition get_region_mapping (fs : filesystem) (mappings_path model : string)
  : Logged (outcome Doc.region_mapping) :=
  match fs mappings_path with
  | None =>
      let msg := "Directory containing region mappings does not exists: "
                 ++ mappings_path in
      log ERROR msg ;;
      ret (Raise (IxmpServerWorkflowError msg))
  | Some entries =>
      match search_region_mapping entries model with
      | Some region_mapping => ret (Return region_mapping)
      | None =>
          let msg := "No region mapping found for model " ++ dquote ++ model
                     ++ dquote ++ " in path " ++ dquote ++ mappings_path
                     ++ dquote in
          ret (Raise (IxmpServerWorkflowError msg))
      end
  end.

(** The body of the loop of [validate_region_mappings], for one model. *)
Definition check_model_regions (set_order : list string -> list string)
    (fs : filesystem) (df : DataFrame) (region_mapping_path : string)
    (model : string) (valid : bool) : Logged bool :=
  r <- get_region_mapping fs region_mapping_path model ;;
  match r with
  | Raise err =>
      log ERROR (exn_str err) ;;
      ret false
  | Return region_mapping =>
      let native_regions := Doc.native_regions region_mapping in
      let region_aggregation := Doc.region_aggregation region_mapping in
      let valid_region_names :=
        set_of (keys native_regions ++ keys region_aggregation ++ ["World"]) in
      let invalid_region_names :=
        set_diff
          (set_of (unique (map Col.region
                     (filter (fun r => Col.model r =? model) df))))
          valid_region_names in
      if (0 <? List.length invalid_region_names)%nat then
        log WARNING ("Model " ++ model ++ " contains unknown region names: "
                     ++ join ", " (set_order invalid_region_names)) ;;
        ret false
      else ret valid
  end.

Section Validators.

(** The order in which Python iterates over a set: some arrangement of
    its members, not fixed by the language. *)
Variable set_order : list string -> list string.

(** The body of the loop of [validate_variables_and_units], carrying [valid]
    and the list [unknown_variable_units]. *)
Definition check_variable_units (df : DataFrame)
    (variable_config : VariableConfig) (variable : string)
    (st : bool * list string) : Logged (bool * list string) :=
  let (valid, unknown_variable_units) := st in
  match dict_get variable_config variable with
  | None => ret st (* not reached: [variable] is a key of the dict *)
  | Some entry =>
      let unit := Cfg.unit entry in
      let variable_df :=
        filter (fun r => (Col.variable r =? variable)
                         && negb (Col.unit r =? unit)) df in
      let unknown_units := unique (map Col.unit variable_df) in
      if (0 <? List.length unknown_units)%nat then
        ret (false,
             (unknown_variable_units ++
                [(variable ++ ": " ++ join ", " unknown_units)%string])%list)
      else ret st
  end.

Definition validate_variables_and_units (df : DataFrame)
    (variable_config : VariableConfig) : Logged bool :=
  log DEBUG "Start variables/units validation" ;;
  let valid := true in
  let unknown_variables :=
    set_diff (set_of (unique (map Col.variable df)))
             (set_of (keys variable_config)) in
  valid <- (if (0 <? List.length unknown_variables)%nat then
              log_validation_errors "Unknown variable(s)"
                (set_order unknown_variables) WARNING default_limit ;;
              ret false
            else ret valid) ;;
  st <- for_each (keys variable_config)
          (check_variable_units df variable_config) (valid, []) ;;
  let (valid, unknown_variable_units) := st in
  (if (0 <? List.length unknown_variable_units)%nat then
     log_validation_errors "Unknown unit(s) for variable(s):"
       unknown_variable_units WARNING default_limit
   else ret tt) ;;
  log DEBUG "Finish variables/units validation" ;;
  ret valid.

(** The body of the loop of [validate_required_variables]. *)
Definition check_required_variable (df : DataFrame)
    (variable_config : VariableConfig) (scenarios models : list string)
    (variable : string) (valid : bool) : Logged bool :=
  let required :=
    match dict_get variable_config variable with
    | Some entry => match Cfg.required entry with
                    | Some b => b
                    | None => false
                    end
    | None => false
    end in
  if required then
    let variable_df := filter (fun r => Col.variable r =? variable) df in
    let invalid_models :=
      set_diff models (set_of (unique (map Col.model variable_df))) in
    valid <- (if (0 <? List.length invalid_models)%nat then
                log WARNING ("Following models miss required variable "
                             ++ variable ++ ": "
                             ++ join ", " (set_order invalid_models)) ;;
                ret false
              else ret valid) ;;
    let invalid_scenarios :=
      set_diff scenarios (set_of (unique (map Col.scenario variable_df))) in
    if (0 <? List.length invalid_scenarios)%nat then
      log WARNING ("Following scenarios miss required variable "
                   ++ variable ++ ": "
                   ++ join ", " (set_order invalid_scenarios)) ;;
      ret false
    else ret valid
  else ret valid.

Definition validate_required_variables (df : DataFrame)
    (variable_config : VariableConfig) : Logged bool :=
  log DEBUG "Start required variables validation" ;;
  let valid := true in
  let scenarios := set_of (unique (map Col.scenario df)) in
  let models := set_of (unique (map Col.model df)) in
  valid <- for_each (keys variable_config)
             (check_required_variable df variable_config scenarios models)
             valid ;;
  log DEBUG "Finish required variables validation" ;;
  ret valid.

Definition validate_allowed_scenarios (df : DataFrame)
    (allowed_scenarios : list string) : Logged bool :=
  let scenarios := set_of (unique (map Col.scenario df)) in
  let unknown_scenarios := set_diff scenarios (set_of allowed_scenarios) in
  let valid := true in
  if (0 <? List.length unknown_scenarios)%nat then
    log_validation_errors "Scenario(s) not allowed"
      (set_order unknown_scenarios) WARNING default_limit ;;
    ret false
  else ret valid.

Definition validate_region_mappings (fs : filesystem) (df : DataFrame)
    (region_mapping_path : string) : Logged bool :=
  let models := unique (map Col.model df) in
  let valid := true in
  valid <- (if (List.length models =? 0)%nat then
              log WARNING "No models to process!" ;;
              ret false
            else ret valid) ;;
  for_each models
    (check_model_regions set_order fs df region_mapping_path) valid.

End Validators.

(** ** Sample data

    A small dataframe, configuration and mapping directory in the style of
    the fixtures that [tests/test_timeseries.py] reads. *)

(** Iteration over a set in the order of insertion. *)
Definition insertion_order (s : list string) : list string := s.

Definition sample_timeseries : DataFrame :=
  [ Col.mk_row "model" "valid_scenario" "World" "Emissions|CO2" "Mt CO2/yr";
    Col.mk_row "model" "invalid_scenario" "Unknown country"
               "Emissions|CO2" "kt CO2/yr";
    Col.mk_row "invalid_model" "valid_scenario" "World"
               "Emissions|CH4" "Mt CH4/yr" ].

Definition sample_variable_config : VariableConfig :=
  [ ("Emissions|CO2", Cfg.mk_entry "Mt CO2/yr" (Some true)) ].

Definition sample_region_mapping : Doc.region_mapping :=
  Doc.mk_region_mapping (Some "model")
    [("World", YNull); ("Europe", YScalar "EUR")]
    [("R5OECD", YList ["Europe"])].

Definition sample_filesystem : filesystem :=
  fun path =>
    if path =? "region_mapping"
    then Some [ ("README.md", Doc.mk_region_mapping None [] []);
                ("model.yaml", sample_region_mapping) ]
    else None.

(** ** Reading the log *)

(** [text in caplog.text], for a text looked up within one message. *)
Definition log_contains (text : string) (out : list record) : bool :=
  existsb (fun r => contains text (snd r)) out.

(** The line that [log_validation_errors] writes for one error. *)
Definition bullet (lvl : level) (error : string) : record :=
  (lvl, "- " ++ error).

(** The directory entry [e] is a file with a recognised extension whose
    document declares [model]. *)
Definition declares_model (model : string) (e : string * Doc.region_mapping)
  : Prop :=
  (endswith (fst e) ".yaml" = true \/ endswith (fst e) ".yml" = true) /\
  Doc.model (snd e) = Some model.

(** Some row of [df] has the given variable and the given model (scenario). *)
Definition has_model_row (df : DataFrame) (variable model : string) : Prop :=
  exists r, In r df /\ Col.variable r = variable /\ Col.model r = model.

Definition has_scenario_row (df : DataFrame) (variable scenario : string)
  : Prop :=
  exists r, In r df /\ Col.variable r = variable /\ Col.scenario r = scenario.

(** The units found on the rows of [variable] that differ from [unit]:
    [unknown_units] in the loop of [validate_variables_and_units]. *)
Definition mismatched_units (df : DataFrame) (variable unit : string)
  : list string :=
  unique (map Col.unit
            (filter (fun r => (Col.variable r =? variable)
                              && negb (Col.unit r =? unit)) df)).

(** The strings that the loop of [validate_variables_and_units] appends for
    one variable: none, or the one naming its mismatched units. *)
Definition unit_mismatch_report (df : DataFrame)
    (variable_config : VariableConfig) (variable : string) : list string :=
  match dict_get variable_config variable with
  | None => []
  | Some entry =>
      match mismatched_units df variable (Cfg.unit entry) with
      | [] => []
      | units => [variable ++ ": " ++ join ", " units]
      end
  end.

(** [variable_config[variable].get('required', False)], read as a condition. *)
Definition is_required (variable_config : VariableConfig) (variable : string)
  : bool :=
  match dict_get variable_config variable with
  | Some entry => match Cfg.required entry with
                  | Some b => b
                  | None => false
                  end
  | None => false
  end.

(** The models (scenarios) of the dataframe without a row for [variable]:
    [invalid_models] and [invalid_scenarios] in the loop of
    [validate_required_variables]. *)
Definition missing_models (df : DataFrame) (variable : string) : list string :=
  set_diff (set_of (unique (map Col.model df)))
    (set_of (unique (map Col.model
                       (filter (fun r => Col.variable r =? variable) df)))).

Definition missing_scenarios (df : DataFrame) (variable : string)
  : list string :=
  set_diff (set_of (unique (map Col.scenario df)))
    (set_of (unique (map Col.scenario
                       (filter (fun r => Col.variable r =? variable) df)))).

(** A dataframe with one row, whose unit is not the configured one. *)
Definition wrong_unit_timeseries : DataFrame :=
  [ Col.mk_row "model" "invalid_scenario" "World" "Emissions|CO2" "kt CO2/yr" ].

(** The regions on the rows of [model] that its mapping does not know:
    [invalid_region_names] in the loop of [validate_region_mappings]. *)
Definition unknown_regions (df : DataFrame) (mapping : Doc.region_mapping)
    (model : string) : list string :=
  set_diff
    (set_of (unique (map Col.region
                       (filter (fun r => Col.model r =? model) df))))
    (set_of (keys (Doc.native_regions mapping)
             ++ keys (Doc.region_aggregation mapping) ++ ["World"])).

(** The two messages of [get_region_mapping]. *)
Definition directory_missing_message (mappings_path : string) : string :=
  "Directory containing region mappings does not exists: " ++ mappings_path.

Definition mapping_not_found_message (model mappings_path : string) : string :=
  "No region mapping found for model " ++ dquote ++ model ++ dquote
  ++ " in path " ++ dquote ++ mappings_path ++ dquote.

(** The check that the loop of [validate_region_mappings] makes for one
    model: its mapping is found and none of its regions is unknown. *)
Definition model_ok (fs : filesystem) (df : DataFrame)
    (region_mapping_path model : string) : bool :=
  match fst (get_region_mapping fs region_mapping_path model) with
  | Raise _ => false
  | Return mapping =>
      negb (0 <? List.length (unknown_regions df mapping model))%nat
  end.

(** Some record of the log is above DEBUG: a warning or an error. *)
Definition warns (out : list record) : bool :=
  existsb (fun r => match fst r with DEBUG => false | _ => true end) out.

(** The file name has one of the two extensions that [get_region_mapping]
    opens. *)
Definition recognised (filename : string) : bool :=
  endswith filename ".yaml" || endswith filename ".yml".

(** The file system without the files of any other extension. *)
Definition only_recognised (fs : filesystem) : filesystem :=
  fun path => option_map (filter (fun e => recognised (fst e))) (fs path).

(** A dataframe in which the scenario "other_scenario" has no row for
    "Emissions|CO2". *)
Definition sample_missing_scenario : DataFrame :=
  [ Col.mk_row "model" "valid_scenario" "World" "Emissions|CO2" "Mt CO2/yr";
    Col.mk_row "model" "other_scenario" "World" "Emissions|CH4" "Mt CH4/yr" ].

(** A dataframe whose regions are all known to [sample_region_mapping]. *)
Definition sample_mapped_timeseries : DataFrame :=
  [ Col.mk_row "model" "valid_scenario" "World" "Emissions|CO2" "Mt CO2/yr";
    Col.mk_row "model" "other_scenario" "Europe" "Emissions|CO2" "Mt CO2/yr" ].

(** ** The writer effect *)

Lemma fst_bind {A B} (m : Logged A) (k : A -> Logged B) :
  fst (bind m k) = fst (k (fst m)).
Proof. unfold bind. destruct (k (fst m)); reflexivity. Qed.

Lemma snd_bind {A B} (m : Logged A) (k : A -> Logged B) :
  snd (bind m k) = (snd m ++ snd (k (fst m)))%list.
Proof. unfold bind. destruct (k (fst m)); reflexivity. Qed.

Lemma bind_pair {A B} (m : Logged A) (k : A -> Logged B) :
  bind m k = (fst (k (fst m)), (snd m ++ snd (k (fst m)))%list).
Proof. unfold bind. destruct (k (fst m)); reflexivity. Qed.

(** The value of a loop is the fold of the values of its body. *)
Lemma for_each_fst {A S} (body : A -> S -> Logged S) (xs : list A) (s : S) :
  fst (for_each xs body s) = fold_left (fun s x => fst (body x s)) xs s.
Proof.
  revert s. induction xs as [|x rest IH]; intros s; simpl.
  - reflexivity.
  - rewrite fst_bind. apply IH.
Qed.

(** When what the body logs does not depend on the loop-carried variables,
    the loop logs the body's records for every element, in order. *)
Lemma for_each_snd {A S} (body : A -> S -> Logged S) (xs : list A) (s s0 : S) :
  (forall x s1 s2, snd (body x s1) = snd (body x s2)) ->
  snd (for_each xs body s) = flat_map (fun x => snd (body x s0)) xs.
Proof.
  intros Hind. revert s. induction xs as [|x rest IH]; intros s; simpl.
  - reflexivity.
  - rewrite snd_bind, IH. f_equal. apply Hind.
Qed.

(** A body that only ever lowers a flag: the flag after the loop is the
    flag before it and the conjunction of the per-element checks. *)
Lemma fold_flag {A} (ok : A -> bool) (step : A -> bool -> bool) (xs : list A)
    (valid : bool) :
  (forall x v, step x v = v && ok x) ->
  fold_left (fun v x => step x v) xs valid = valid && forallb ok xs.
Proof.
  intros Hstep. revert valid.
  induction xs as [|x rest IH]; intros valid; simpl.
  - now rewrite andb_true_r.
  - rewrite IH, Hstep. now rewrite andb_assoc.
Qed.

(** ** Python and pandas primitives *)

Lemma length_pos_false {A} (l : list A) :
  (0 <? List.length l)%nat = false <-> l = [].
Proof.
  destruct l; simpl; split; intros H; try reflexivity; discriminate.
Qed.

Lemma length_pos_true {A} (l : list A) :
  (0 <? List.length l)%nat = true <-> l <> [].
Proof.
  destruct l; simpl; split; intros H; try discriminate; try reflexivity.
  now contradiction H.
Qed.

Lemma mem_In (x : string) (xs : list string) : mem x xs = true <-> In x xs.
Proof.
  unfold mem. rewrite existsb_exists. split.
  - intros [y [Hy Heq]]. apply String.eqb_eq in Heq. now subst.
  - intros H. exists x. split; [assumption | apply String.eqb_refl].
Qed.

Lemma unique_In (x : string) (xs : list string) : In x (unique xs) <-> In x xs.
Proof.
  induction xs as [|y rest IH]; simpl.
  - reflexivity.
  - rewrite filter_In, IH. split.
    + intros [H | [H _]]; auto.
    + intros [H | H]; [now left | ].
      destruct (String.eqb_spec x y) as [-> | Hne]; [now left | ].
      right. split; [assumption | reflexivity].
Qed.

Lemma unique_NoDup (xs : list string) : NoDup (unique xs).
Proof.
  induction xs as [|y rest IH]; simpl.
  - constructor.
  - constructor.
    + rewrite filter_In. intros [_ H].
      now rewrite String.eqb_refl in H.
    + now apply NoDup_filter.
Qed.

Lemma unique_nil (xs : list string) : unique xs = [] <-> xs = [].
Proof. destruct xs; simpl; split; intros H; try reflexivity; discriminate. Qed.

Lemma set_diff_In (x : string) (a b : list string) :
  In x (set_diff a b) <-> In x a /\ ~ In x b.
Proof.
  unfold set_diff. rewrite filter_In, negb_true_iff.
  split; intros [Ha Hb]; (split; [assumption | ]).
  - intros Hin. apply mem_In in Hin. congruence.
  - destruct (mem x b) eqn:E; [ | reflexivity].
    exfalso. apply Hb. now apply mem_In.
Qed.

Lemma set_diff_NoDup (a b : list string) : NoDup a -> NoDup (set_diff a b).
Proof. apply NoDup_filter. Qed.

Lemma list_nil_no_member {A} (l : list A) : l = [] <-> forall x, ~ In x l.
Proof.
  split.
  - intros -> x [].
  - destruct l as [|a l]; [reflexivity | ].
    intros H. exfalso. apply (H a). now left.
Qed.

Lemma set_diff_nil (a b : list string) :
  set_diff a b = [] <-> forall x, In x a -> In x b.
Proof.
  rewrite list_nil_no_member. split.
  - intros H x Ha. destruct (in_dec string_dec x b) as [Hb | Hb]; auto.
    exfalso. apply (H x). apply set_diff_In. now split.
  - intros H x Hx. apply set_diff_In in Hx. destruct Hx as [Ha Hb].
    apply Hb, H, Ha.
Qed.

Lemma dict_get_keys {V} (d : dict V) (k : string) :
  In k (keys d) <-> exists v, dict_get d k = Some v.
Proof.
  induction d as [|[k' v'] rest IH]; simpl.
  - split; [intros [] | intros [v H]; discriminate].
  - destruct (String.eqb_spec k' k) as [-> | Hne].
    + split; [intros _; now exists v' | auto].
    + rewrite IH. split; [intros [H | H]; [contradiction | exact H] | auto].
Qed.

Lemma filter_nil {A} (f : A -> bool) (l : list A) :
  filter f l = [] <-> forall x, In x l -> f x = false.
Proof.
  rewrite list_nil_no_member. split.
  - intros H x Hx. destruct (f x) eqn:E; [ | reflexivity].
    exfalso. apply (H x). apply filter_In. now split.
  - intros H x Hx. apply filter_In in Hx. destruct Hx as [Hx Hf].
    rewrite (H x Hx) in Hf. discriminate.
Qed.

Lemma map_nil {A B} (f : A -> B) (l : list A) : map f l = [] <-> l = [].
Proof. destruct l; simpl; split; intros H; try reflexivity; discriminate. Qed.

(** ** log_validation_errors *)

Lemma for_each_log {A} (lvl : level) (f : A -> string) (xs : list A) :
  for_each xs (fun x _ => log lvl (f x)) tt = (tt, map (fun x => (lvl, f x)) xs).
Proof.
  induction xs as [|x rest IH]; simpl.
  - reflexivity.
  - rewrite bind_pair. cbn [fst snd log]. rewrite IH. reflexivity.
Qed.

(** What the reporter writes, whatever the limit. *)
Lemma log_validation_errors_out (message : string) (errors : list string)
    (lvl : level) (limit : Z) :
  log_validation_errors message errors lvl limit =
  (tt, (lvl, message ++ ":")
         :: (map (bullet lvl) (slice_to errors limit)
             ++ (if (Z.of_nat (List.length errors) >? limit)%Z
                 then [(lvl, ("and "
                              ++ str_of_int (Z.of_nat (List.length errors) - limit)
                              ++ " more...")%string)]
                 else []))%list).
Proof.
  unfold log_validation_errors.
  rewrite bind_pair. simpl fst. simpl snd.
  rewrite bind_pair, for_each_log. simpl fst. simpl snd.
  unfold bullet.
  destruct (Z.of_nat (List.length errors) >? limit)%Z; reflexivity.
Qed.

Lemma slice_to_nonneg {A} (xs : list A) (stop : Z) :
  (0 <= stop)%Z ->
  slice_to xs stop =
  firstn (Z.to_nat (Z.min (Z.of_nat (List.length xs)) stop)) xs.
Proof.
  intros Hstop. unfold slice_to.
  destruct (Z.ltb_spec stop 0) as [Hneg | _]; [lia | ].
  destruct (Z.le_gt_cases stop (Z.of_nat (List.length xs))) as [Hle | Hgt].
  - now rewrite Z.min_r.
  - rewrite Z.min_l by lia. rewrite Nat2Z.id, firstn_all.
    apply firstn_all2. lia.
Qed.

Lemma slice_to_all {A} (xs : list A) (stop : Z) :
  (Z.of_nat (List.length xs) <= stop)%Z -> slice_to xs stop = xs.
Proof.
  intros Hle. rewrite slice_to_nonneg by lia.
  rewrite Z.min_l by lia. now rewrite Nat2Z.id, firstn_all.
Qed.

(** C8, as amended: for a limit that is not negative, [log_validation_errors]
    writes the heading line first, then the first [min (len es) limit] errors,
    each as its own bulleted line and in the order of the list, and then one
    summary line giving [len es - limit] exactly when [len es > limit]; no
    summary line is written when [len es <= limit]. *)
Theorem log_validation_errors_truncates (heading : string) (es : list string)
    (lvl : level) (limit : Z) :
  (0 <= limit)%Z ->
  let shown := Z.to_nat (Z.min (Z.of_nat (List.length es)) limit) in
  List.length (firstn shown es) = shown /\
  snd (log_validation_errors heading es lvl limit) =
    ((lvl, (heading ++ ":")%string)
       :: map (fun e => (lvl, ("- " ++ e)%string)) (firstn shown es)
       ++ (if (limit <? Z.of_nat (List.length es))%Z
           then [(lvl, ("and "
                        ++ str_of_int (Z.of_nat (List.length es) - limit)
                        ++ " more...")%string)]
           else []))%list.
Proof.
  intros Hlimit shown. split.
  - apply firstn_length_le. unfold shown. lia.
  - rewrite log_validation_errors_out. simpl snd.
    rewrite slice_to_nonneg by assumption. fold shown.
    rewrite Z.gtb_ltb. reflexivity.
Qed.

Lemma log_validation_errors_truncates_witness :
  (0 <= 2)%Z /\
  snd (log_validation_errors "Unknown variable(s)" ["a"; "b"; "c"] WARNING 2) =
  [(WARNING, "Unknown variable(s):"); (WARNING, "- a"); (WARNING, "- b");
   (WARNING, "and 1 more...")].
Proof.
  assert (Hlimit : (0 <= 2)%Z) by lia.
  split; [exact Hlimit | ].
  exact (proj2 (log_validation_errors_truncates
                  "Unknown variable(s)" ["a"; "b"; "c"] WARNING 2 Hlimit)).
Defined.

(** With a negative limit the slice [errors[:limit]] drops from the end of the
    list: one of two errors is still written as a bullet for limit -1, while
    [min 2 (-1)] is negative. *)
Lemma log_validation_errors_negative_limit :
  snd (log_validation_errors "Unknown variable(s)" ["a"; "b"] WARNING (-1)) =
    [(WARNING, "Unknown variable(s):"); (WARNING, "- a");
     (WARNING, "and 3 more...")] /\
  (Z.min (Z.of_nat (List.length ["a"; "b"])) (-1) < 1)%Z.
Proof. split; [reflexivity | cbn; lia]. Qed.

Lemma unique_length_le (xs : list string) :
  (List.length (unique xs) <= List.length xs)%nat.
Proof.
  induction xs as [|x rest IH]; simpl; [lia | ].
  pose proof (filter_length_le (fun y => negb (y =? x)) (unique rest)). lia.
Qed.

Lemma set_diff_length_le (a b : list string) :
  (List.length (set_diff a b) <= List.length a)%nat.
Proof. apply filter_length_le. Qed.

Lemma log_contains_In (text : string) (out : list record) (r : record) :
  In r out -> contains text (snd r) = true -> log_contains text out = true.
Proof.
  intros Hin Hc. unfold log_contains. apply existsb_exists. now exists r.
Qed.

(** ** validate_allowed_scenarios *)

Section AllowedScenarios.

Variable set_order : list string -> list string.
Hypothesis set_order_perm : forall s, Permutation (set_order s) s.

Lemma validate_allowed_scenarios_out (df : DataFrame)
    (allowed_scenarios : list string) :
  let unknown_scenarios :=
    set_diff (set_of (unique (map Col.scenario df)))
             (set_of allowed_scenarios) in
  validate_allowed_scenarios set_order df allowed_scenarios =
  if (0 <? List.length unknown_scenarios)%nat
  then (false, snd (log_validation_errors "Scenario(s) not allowed"
                      (set_order unknown_scenarios) WARNING default_limit))
  else (true, []).
Proof.
  intros unknown_scenarios. unfold validate_allowed_scenarios.
  fold unknown_scenarios.
  destruct (0 <? List.length unknown_scenarios)%nat; [ | reflexivity].
  rewrite bind_pair. cbn [fst snd ret]. now rewrite app_nil_r.
Qed.

(** C4, as amended: on a dataset that contains the scenario
    "valid_scenario", [validate_allowed_scenarios] with the empty allow-list
    returns false and the log starts with the heading
    "Scenario(s) not allowed:"; when the dataset has at most 100 distinct
    scenarios (the limit of the reporter), the log does contain the bulleted
    line "- valid_scenario". *)
Theorem empty_allow_list_reports_scenario (df : DataFrame) :
  In "valid_scenario" (map Col.scenario df) ->
  let res := validate_allowed_scenarios set_order df [] in
  fst res = false /\
  hd_error (snd res) = Some (WARNING, "Scenario(s) not allowed:") /\
  log_contains "Scenario(s) not allowed" (snd res) = true /\
  ((List.length (unique (map Col.scenario df)) <= 100)%nat ->
   In (WARNING, "- valid_scenario") (snd res) /\
   log_contains "- valid_scenario" (snd res) = true).
Proof.
  intros Hin res. subst res.
  pose proof (validate_allowed_scenarios_out df []) as Hout.
  cbv zeta in Hout.
  set (unknown := set_diff (set_of (unique (map Col.scenario df)))
                           (set_of [])) in *.
  assert (Hmem : In "valid_scenario" unknown).
  { unfold unknown, set_of. apply set_diff_In. split.
    - now rewrite !unique_In.
    - intros []. }
  assert (Hpos : (0 <? List.length unknown)%nat = true).
  { apply length_pos_true. intros E. now rewrite E in Hmem. }
  rewrite Hpos in Hout. rewrite Hout. cbn [fst snd].
  rewrite log_validation_errors_out. cbn [snd hd_error].
  split; [reflexivity | ]. split; [reflexivity | ]. split.
  - apply log_contains_In with (r := (WARNING, "Scenario(s) not allowed:")).
    + now left.
    + reflexivity.
  - intros Hfew.
    assert (Hbullet : In (WARNING, "- valid_scenario")
              (map (bullet WARNING)
                   (slice_to (set_order unknown) default_limit))).
    { rewrite slice_to_all.
      - apply (in_map (bullet WARNING) _ "valid_scenario").
        apply (Permutation_in _ (Permutation_sym (set_order_perm unknown))).
        exact Hmem.
      - rewrite (Permutation_length (set_order_perm unknown)).
        assert (Hlen : (List.length unknown <= 100)%nat).
        { unfold unknown.
          eapply Nat.le_trans; [apply set_diff_length_le | ].
          eapply Nat.le_trans; [apply unique_length_le | exact Hfew]. }
        unfold default_limit. lia. }
    assert (Hline : In (WARNING, "- valid_scenario")
              ((WARNING, "Scenario(s) not allowed:")
                 :: map (bullet WARNING)
                      (slice_to (set_order unknown) default_limit)
                 ++ (if (Z.of_nat (List.length (set_order unknown))
                         >? default_limit)%Z
                     then [(WARNING,
                            ("and "
                             ++ str_of_int
                                  (Z.of_nat (List.length (set_order unknown))
                                   - default_limit)
                             ++ " more...")%string)]
                     else []))%list).
    { right. apply in_or_app. now left. }
    split; [exact Hline | ].
    now apply log_contains_In with (r := (WARNING, "- valid_scenario")).
Qed.

End AllowedScenarios.

Lemma insertion_order_perm (s : list string) :
  Permutation (insertion_order s) s.
Proof. apply Permutation_refl. Qed.

Lemma empty_allow_list_reports_scenario_witness :
  In "valid_scenario" (map Col.scenario sample_timeseries) /\
  In (WARNING, "- valid_scenario")
     (snd (validate_allowed_scenarios insertion_order sample_timeseries [])).
Proof.
  assert (Hin : In "valid_scenario" (map Col.scenario sample_timeseries))
    by (simpl; auto).
  split; [exact Hin | ].
  apply (empty_allow_list_reports_scenario
           insertion_order insertion_order_perm sample_timeseries Hin).
  simpl. lia.
Defined.

(** C4 as it is stated fails: with the empty allow-list every scenario of
    the dataset is unknown, and "valid_scenario" is written as a bullet. *)
Lemma empty_allow_list_hides_scenario_refuted :
  ~ (forall set_order : list string -> list string,
        (forall s, Permutation (set_order s) s) ->
        forall df : DataFrame,
          In "valid_scenario" (map Col.scenario df) ->
          let res := validate_allowed_scenarios set_order df [] in
          fst res = false /\
          log_contains "Scenario(s) not allowed" (snd res) = true /\
          log_contains "- valid_scenario" (snd res) = false).
Proof.
  intros Hclaim.
  specialize (Hclaim insertion_order insertion_order_perm sample_timeseries).
  destruct Hclaim as [_ [_ Hnot]]; [simpl; auto | ].
  vm_compute in Hnot. discriminate.
Qed.

(** ** validate_variables_and_units *)

Lemma flat_map_nil {A B} (f : A -> list B) (l : list A) :
  flat_map f l = [] <-> forall x, In x l -> f x = [].
Proof.
  induction l as [|a l IH]; simpl.
  - split; [intros _ x [] | reflexivity].
  - split.
    + intros H x [<- | Hx].
      * now apply app_eq_nil in H.
      * apply app_eq_nil in H. now apply IH.
    + intros H. rewrite (H a) by now left. simpl. apply IH. auto.
Qed.

Lemma check_variable_units_out (df : DataFrame) (variable_config : VariableConfig)
    (variable : string) (valid : bool) (acc : list string) :
  check_variable_units df variable_config variable (valid, acc) =
  ((valid && negb (0 <? List.length
                          (unit_mismatch_report df variable_config variable))%nat,
    (acc ++ unit_mismatch_report df variable_config variable)%list), []).
Proof.
  unfold check_variable_units, unit_mismatch_report.
  destruct (dict_get variable_config variable) as [entry|].
  - fold (mismatched_units df variable (Cfg.unit entry)).
    destruct (mismatched_units df variable (Cfg.unit entry)) as [|u us];
      cbn [List.length Nat.ltb Nat.leb negb ret].
    + now rewrite andb_true_r, app_nil_r.
    + now rewrite andb_false_r.
  - cbn [List.length Nat.ltb Nat.leb negb ret].
    now rewrite andb_true_r, app_nil_r.
Qed.

Lemma check_variable_units_loop (df : DataFrame)
    (variable_config : VariableConfig) (vars : list string) (valid : bool)
    (acc : list string) :
  for_each vars (check_variable_units df variable_config) (valid, acc) =
  ((valid && negb (0 <? List.length
                          (flat_map (unit_mismatch_report df variable_config)
                                    vars))%nat,
    (acc ++ flat_map (unit_mismatch_report df variable_config) vars)%list),
   []).
Proof.
  revert valid acc.
  induction vars as [|v rest IH]; intros valid acc; cbn [for_each].
  - simpl. now rewrite andb_true_r, app_nil_r.
  - rewrite bind_pair, check_variable_units_out. cbn [fst snd].
    rewrite IH. cbn [fst snd app flat_map].
    rewrite <- app_assoc, <- andb_assoc. do 2 f_equal. f_equal.
    destruct (unit_mismatch_report df variable_config v); simpl.
    + reflexivity.
    + reflexivity.
Qed.

Section VariablesAndUnits.

Variable set_order : list string -> list string.
Variable df : DataFrame.
Variable variable_config : VariableConfig.

(** The value of the function and everything it logs. *)
Lemma validate_variables_and_units_out :
  let unknown_variables :=
    set_diff (set_of (unique (map Col.variable df)))
             (set_of (keys variable_config)) in
  let unknown_variable_units :=
    flat_map (unit_mismatch_report df variable_config) (keys variable_config) in
  validate_variables_and_units set_order df variable_config =
  (negb (0 <? List.length unknown_variables)%nat
     && negb (0 <? List.length unknown_variable_units)%nat,
   ((DEBUG, "Start variables/units validation")
      :: (if (0 <? List.length unknown_variables)%nat
          then snd (log_validation_errors "Unknown variable(s)"
                      (set_order unknown_variables) WARNING default_limit)
          else [])
      ++ (if (0 <? List.length unknown_variable_units)%nat
          then snd (log_validation_errors "Unknown unit(s) for variable(s):"
                      unknown_variable_units WARNING default_limit)
          else [])
      ++ [(DEBUG, "Finish variables/units validation")])%list).
Proof.
  intros unknown_variables unknown_variable_units.
  unfold validate_variables_and_units.
  fold unknown_variables.
  rewrite bind_pair. cbn [fst snd log].
  rewrite bind_pair.
  rewrite (bind_pair (for_each _ _ _)).
  rewrite check_variable_units_loop. fold unknown_variable_units.
  cbn [fst snd app].
  destruct (0 <? List.length unknown_variables)%nat;
    destruct (0 <? List.length unknown_variable_units)%nat;
    repeat (rewrite bind_pair; cbn [fst snd ret log app negb andb]);
    rewrite ?app_nil_r; reflexivity.
Qed.

(** C1: [validate_variables_and_units] returns true exactly when every
    distinct variable of the dataframe is a key of the configuration and
    every row carries the unit that the configuration gives its variable. *)
Theorem validate_variables_and_units_true_iff :
  fst (validate_variables_and_units set_order df variable_config) = true <->
  (forall v, In v (unique (map Col.variable df)) ->
             In v (keys variable_config)) /\
  (forall r entry, In r df ->
                   dict_get variable_config (Col.variable r) = Some entry ->
                   Col.unit r = Cfg.unit entry).
Proof.
  rewrite validate_variables_and_units_out. cbn [fst].
  rewrite andb_true_iff, !negb_true_iff, !length_pos_false.
  rewrite set_diff_nil, flat_map_nil.
  apply Morphisms_Prop.and_iff_morphism.
  - unfold set_of. split.
    + intros H v Hv. rewrite <- unique_In. apply H. now rewrite unique_In.
    + intros H v Hv. rewrite unique_In. apply H. now rewrite unique_In in Hv.
  - split.
    + intros H r entry Hr Hget.
      assert (Hkey : In (Col.variable r) (keys variable_config))
        by (apply dict_get_keys; now exists entry).
      specialize (H _ Hkey). unfold unit_mismatch_report in H.
      rewrite Hget in H.
      destruct (mismatched_units df (Col.variable r) (Cfg.unit entry))
        as [|u us] eqn:E; [ | discriminate].
      unfold mismatched_units in E.
      apply unique_nil, map_nil in E.
      pose proof (proj1 (filter_nil _ _) E r Hr) as Hrow. cbn beta in Hrow.
      rewrite String.eqb_refl in Hrow. cbn [andb] in Hrow.
      apply negb_false_iff in Hrow. now apply String.eqb_eq.
    + intros H v Hv. unfold unit_mismatch_report.
      destruct (dict_get variable_config v) as [entry|] eqn:Hget;
        [ | reflexivity].
      assert (E : mismatched_units df v (Cfg.unit entry) = []).
      { unfold mismatched_units. apply unique_nil, map_nil, filter_nil.
        intros r Hr. cbn beta.
        destruct (String.eqb_spec (Col.variable r) v) as [Hv' | Hv'];
          [ | reflexivity].
        cbn [andb]. apply negb_false_iff, String.eqb_eq.
        apply H; [assumption | now rewrite Hv']. }
      now rewrite E.
Qed.

End VariablesAndUnits.

(** C9 at a dataframe with one unit mismatch: the heading of the batch is
    passed to the reporter with a colon of its own and the reporter appends
    another, so the line written ends in two colons. *)
Theorem unit_batch_heading_has_two_colons (set_order : list string -> list string) :
  validate_variables_and_units set_order wrong_unit_timeseries
    sample_variable_config =
  (false,
   [ (DEBUG, "Start variables/units validation");
     (WARNING, "Unknown unit(s) for variable(s)::");
     (WARNING, "- Emissions|CO2: kt CO2/yr");
     (DEBUG, "Finish variables/units validation") ]).
Proof. vm_compute. reflexivity. Qed.

(** Whenever some unit mismatch is found, the accumulated strings are handed
    to the reporter as one batch, and the first line of that batch is the
    heading with two colons. *)
Lemma unit_batch_reported (set_order : list string -> list string)
    (df : DataFrame) (variable_config : VariableConfig) :
  let batch :=
    flat_map (unit_mismatch_report df variable_config) (keys variable_config) in
  batch <> [] ->
  exists before,
    snd (validate_variables_and_units set_order df variable_config) =
    (before
       ++ (WARNING, "Unknown unit(s) for variable(s)::")
       :: map (bullet WARNING) (slice_to batch default_limit)
       ++ (if (Z.of_nat (List.length batch) >? default_limit)%Z
           then [(WARNING,
                  ("and " ++ str_of_int (Z.of_nat (List.length batch)
                                         - default_limit)
                   ++ " more...")%string)]
           else [])
       ++ [(DEBUG, "Finish variables/units validation")])%list.
Proof.
  intros batch Hbatch.
  rewrite validate_variables_and_units_out. cbn [snd]. fold batch.
  apply length_pos_true in Hbatch. rewrite Hbatch.
  set (unknown_variables :=
         set_diff (set_of (unique (map Col.variable df)))
                  (set_of (keys variable_config))).
  exists ((DEBUG, "Start variables/units validation")
            :: (if (0 <? List.length unknown_variables)%nat
                then snd (log_validation_errors "Unknown variable(s)"
                            (set_order unknown_variables) WARNING
                            default_limit)
                else [])).
  cbn [app]. f_equal. f_equal.
  rewrite log_validation_errors_out. cbn [snd app]. f_equal.
  now rewrite <- app_assoc.
Qed.

(** ** validate_required_variables *)

Lemma model_of_variable_rows (df : DataFrame) (variable model : string) :
  In model (map Col.model (filter (fun r => Col.variable r =? variable) df))
  <-> has_model_row df variable model.
Proof.
  unfold has_model_row. rewrite in_map_iff. split.
  - intros [r [Hm Hr]]. apply filter_In in Hr. destruct Hr as [Hr Hv].
    apply String.eqb_eq in Hv. now exists r.
  - intros [r [Hr [Hv Hm]]]. exists r. split; [assumption | ].
    apply filter_In. split; [assumption | now apply String.eqb_eq].
Qed.

Lemma scenario_of_variable_rows (df : DataFrame) (variable scenario : string) :
  In scenario
     (map Col.scenario (filter (fun r => Col.variable r =? variable) df))
  <-> has_scenario_row df variable scenario.
Proof.
  unfold has_scenario_row. rewrite in_map_iff. split.
  - intros [r [Hm Hr]]. apply filter_In in Hr. destruct Hr as [Hr Hv].
    apply String.eqb_eq in Hv. now exists r.
  - intros [r [Hr [Hv Hm]]]. exists r. split; [assumption | ].
    apply filter_In. split; [assumption | now apply String.eqb_eq].
Qed.

Lemma set_of_unique_In (x : string) (xs : list string) :
  In x (set_of (unique xs)) <-> In x xs.
Proof.
  unfold set_of. split; intros H.
  - exact (proj1 (unique_In x xs) (proj1 (unique_In x (unique xs)) H)).
  - exact (proj2 (unique_In x (unique xs)) (proj2 (unique_In x xs) H)).
Qed.

Lemma missing_models_In (df : DataFrame) (variable model : string) :
  In model (missing_models df variable) <->
  In model (map Col.model df) /\ ~ has_model_row df variable model.
Proof.
  unfold missing_models. split.
  - intros H. apply set_diff_In in H. destruct H as [Hin Hout]. split.
    + now apply set_of_unique_In.
    + intros Hrow. apply Hout, set_of_unique_In.
      now apply model_of_variable_rows.
  - intros [Hin Hout]. apply set_diff_In. split.
    + now apply set_of_unique_In.
    + intros Hrow. apply Hout, model_of_variable_rows.
      now apply set_of_unique_In.
Qed.

Lemma missing_scenarios_In (df : DataFrame) (variable scenario : string) :
  In scenario (missing_scenarios df variable) <->
  In scenario (map Col.scenario df) /\ ~ has_scenario_row df variable scenario.
Proof.
  unfold missing_scenarios. split.
  - intros H. apply set_diff_In in H. destruct H as [Hin Hout]. split.
    + now apply set_of_unique_In.
    + intros Hrow. apply Hout, set_of_unique_In.
      now apply scenario_of_variable_rows.
  - intros [Hin Hout]. apply set_diff_In. split.
    + now apply set_of_unique_In.
    + intros Hrow. apply Hout, scenario_of_variable_rows.
      now apply set_of_unique_In.
Qed.

Lemma missing_models_NoDup (df : DataFrame) (variable : string) :
  NoDup (missing_models df variable).
Proof. apply set_diff_NoDup, unique_NoDup. Qed.

Lemma missing_models_nil (df : DataFrame) (variable : string) :
  missing_models df variable = [] <->
  forall m, In m (map Col.model df) -> has_model_row df variable m.
Proof.
  rewrite list_nil_no_member. split.
  - intros H m Hm.
    destruct (in_dec string_dec m
                (map Col.model
                   (filter (fun r => Col.variable r =? variable) df)))
      as [Hrow | Hrow]; [now apply model_of_variable_rows | ].
    exfalso. apply (H m), missing_models_In. split; [assumption | ].
    intros Hhas. now apply Hrow, model_of_variable_rows.
  - intros H m Hm. apply missing_models_In in Hm. destruct Hm as [Hin Hout].
    now apply Hout, H.
Qed.

Lemma missing_scenarios_nil (df : DataFrame) (variable : string) :
  missing_scenarios df variable = [] <->
  forall s, In s (map Col.scenario df) -> has_scenario_row df variable s.
Proof.
  rewrite list_nil_no_member. split.
  - intros H m Hm.
    destruct (in_dec string_dec m
                (map Col.scenario
                   (filter (fun r => Col.variable r =? variable) df)))
      as [Hrow | Hrow]; [now apply scenario_of_variable_rows | ].
    exfalso. apply (H m), missing_scenarios_In. split; [assumption | ].
    intros Hhas. now apply Hrow, scenario_of_variable_rows.
  - intros H m Hm. apply missing_scenarios_In in Hm. destruct Hm as [Hin Hout].
    now apply Hout, H.
Qed.

Section RequiredVariables.

Variable set_order : list string -> list string.
Hypothesis set_order_perm : forall s, Permutation (set_order s) s.
Variable df : DataFrame.
Variable variable_config : VariableConfig.

(** The warnings that the loop writes for one variable. *)
Lemma check_required_variable_out (variable : string) (valid : bool) :
  check_required_variable set_order df variable_config
    (set_of (unique (map Col.scenario df))) (set_of (unique (map Col.model df)))
    variable valid =
  if is_required variable_config variable then
    (valid
       && negb (0 <? List.length (missing_models df variable))%nat
       && negb (0 <? List.length (missing_scenarios df variable))%nat,
     ((if (0 <? List.length (missing_models df variable))%nat
       then [(WARNING,
              ("Following models miss required variable " ++ variable ++ ": "
               ++ join ", " (set_order (missing_models df variable)))%string)]
       else [])
      ++ (if (0 <? List.length (missing_scenarios df variable))%nat
          then [(WARNING,
                 ("Following scenarios miss required variable " ++ variable
                  ++ ": "
                  ++ join ", " (set_order (missing_scenarios df variable)))
                 %string)]
          else []))%list)
  else (valid, []).
Proof.
  unfold check_required_variable.
  fold (is_required variable_config variable).
  fold (missing_models df variable). fold (missing_scenarios df variable).
  destruct (is_required variable_config variable); [ | reflexivity].
  rewrite bind_pair.
  destruct (0 <? List.length (missing_models df variable))%nat;
    destruct (0 <? List.length (missing_scenarios df variable))%nat;
    repeat (rewrite ?bind_pair; cbn [fst snd ret log app negb andb]);
    rewrite ?andb_true_r, ?andb_false_r; reflexivity.
Qed.

Lemma check_required_variable_log_indep (variable : string) (v1 v2 : bool) :
  snd (check_required_variable set_order df variable_config
         (set_of (unique (map Col.scenario df)))
         (set_of (unique (map Col.model df))) variable v1) =
  snd (check_required_variable set_order df variable_config
         (set_of (unique (map Col.scenario df)))
         (set_of (unique (map Col.model df))) variable v2).
Proof.
  rewrite !check_required_variable_out.
  now destruct (is_required variable_config variable).
Qed.

(** The check that the loop makes for one variable. *)
Lemma check_required_variable_fst (variable : string) (valid : bool) :
  fst (check_required_variable set_order df variable_config
         (set_of (unique (map Col.scenario df)))
         (set_of (unique (map Col.model df))) variable valid) =
  valid && (negb (is_required variable_config variable)
            || negb (0 <? List.length (missing_models df variable))%nat
               && negb (0 <? List.length (missing_scenarios df variable))%nat).
Proof.
  rewrite check_required_variable_out.
  destruct (is_required variable_config variable); cbn [fst negb orb].
  - now rewrite andb_assoc.
  - now rewrite andb_true_r.
Qed.

Lemma validate_required_variables_out :
  validate_required_variables set_order df variable_config =
  (forallb (fun variable =>
              negb (is_required variable_config variable)
              || negb (0 <? List.length (missing_models df variable))%nat
                 && negb (0 <? List.length (missing_scenarios df variable))%nat)
           (keys variable_config),
   ((DEBUG, "Start required variables validation")
      :: flat_map
           (fun variable =>
              snd (check_required_variable set_order df variable_config
                     (set_of (unique (map Col.scenario df)))
                     (set_of (unique (map Col.model df))) variable true))
           (keys variable_config)
      ++ [(DEBUG, "Finish required variables validation")])%list).
Proof.
  unfold validate_required_variables.
  rewrite bind_pair. cbn [fst snd log].
  rewrite bind_pair.
  rewrite for_each_fst.
  rewrite (for_each_snd _ _ _ true)
    by (intros; apply check_required_variable_log_indep).
  rewrite (fold_flag _ _ _ _ (fun x v => check_required_variable_fst x v)).
  rewrite bind_pair. cbn [fst snd ret log app andb].
  reflexivity.
Qed.

Lemma is_required_true (variable : string) :
  is_required variable_config variable = true <->
  exists entry, dict_get variable_config variable = Some entry /\
                Cfg.required entry = Some true.
Proof.
  unfold is_required.
  destruct (dict_get variable_config variable) as [entry|].
  - split.
    + intros H. exists entry. split; [reflexivity | ].
      destruct (Cfg.required entry) as [[|]|]; congruence.
    + intros [e [He Hr]]. injection He as <-. now rewrite Hr.
  - split; [discriminate | intros [e [He _]]; discriminate].
Qed.

(** C3: [validate_required_variables] returns true exactly when, for every
    variable that the configuration marks as required, every model and every
    scenario of the dataframe has a row for it.  For a required variable that
    some model lacks, one warning is written that names the variable and all
    the models lacking it, joined by commas; the record is the first of the at
    most two that the variable contributes.  The log holds the contribution
    of every configured variable, in order: no variable is skipped because an
    earlier one failed. *)
Theorem validate_required_variables_spec :
  let res := validate_required_variables set_order df variable_config in
  let per_variable variable :=
    snd (check_required_variable set_order df variable_config
           (set_of (unique (map Col.scenario df)))
           (set_of (unique (map Col.model df))) variable true) in
  (fst res = true <->
   forall variable entry,
     dict_get variable_config variable = Some entry ->
     Cfg.required entry = Some true ->
     (forall m, In m (map Col.model df) -> has_model_row df variable m) /\
     (forall s, In s (map Col.scenario df) ->
                has_scenario_row df variable s)) /\
  (forall variable entry m0,
     dict_get variable_config variable = Some entry ->
     Cfg.required entry = Some true ->
     In m0 (map Col.model df) ->
     ~ has_model_row df variable m0 ->
     exists models rest,
       NoDup models /\
       (forall m, In m models <->
                  In m (map Col.model df) /\ ~ has_model_row df variable m) /\
       per_variable variable =
         (WARNING,
          "Following models miss required variable " ++ variable ++ ": "
          ++ join ", " models) :: rest /\
       (List.length rest <= 1)%nat /\
       In (WARNING,
           "Following models miss required variable " ++ variable ++ ": "
           ++ join ", " models) (snd res)) /\
  snd res =
    ((DEBUG, "Start required variables validation")
       :: flat_map per_variable (keys variable_config)
       ++ [(DEBUG, "Finish required variables validation")])%list.
Proof.
  intros res per_variable. subst res.
  rewrite validate_required_variables_out. cbn [fst snd].
  fold per_variable.
  split; [ | split; [ | reflexivity]].
  - rewrite forallb_forall. split.
    + intros H variable entry Hget Hreq.
      assert (Hkey : In variable (keys variable_config))
        by (apply dict_get_keys; now exists entry).
      specialize (H _ Hkey).
      assert (Hr : is_required variable_config variable = true)
        by (apply is_required_true; now exists entry).
      rewrite Hr in H. cbn [negb orb] in H.
      apply andb_true_iff in H. destruct H as [Hm Hs].
      apply negb_true_iff, length_pos_false in Hm.
      apply negb_true_iff, length_pos_false in Hs.
      split; [now apply missing_models_nil | now apply missing_scenarios_nil].
    + intros H variable Hkey.
      destruct (is_required variable_config variable) eqn:Hr;
        [ | reflexivity].
      cbn [negb orb].
      apply is_required_true in Hr. destruct Hr as [entry [Hget Hreq]].
      destruct (H variable entry Hget Hreq) as [Hm Hs].
      apply missing_models_nil in Hm. apply missing_scenarios_nil in Hs.
      now rewrite Hm, Hs.
  - intros variable entry m0 Hget Hreq Hm0 Hmiss.
    assert (Hkey : In variable (keys variable_config))
      by (apply dict_get_keys; now exists entry).
    assert (Hr : is_required variable_config variable = true)
      by (apply is_required_true; now exists entry).
    assert (Hin0 : In m0 (missing_models df variable))
      by (apply missing_models_In; now split).
    assert (Hpos : (0 <? List.length (missing_models df variable))%nat = true).
    { apply length_pos_true. intros E. now rewrite E in Hin0. }
    assert (Hseg : exists rest,
               per_variable variable =
                 (WARNING,
                  "Following models miss required variable " ++ variable
                  ++ ": "
                  ++ join ", " (set_order (missing_models df variable)))
                   :: rest /\
               (List.length rest <= 1)%nat).
    { unfold per_variable. rewrite check_required_variable_out, Hr, Hpos.
      cbn [snd app].
      destruct (0 <? List.length (missing_scenarios df variable))%nat;
        eexists; (split; [reflexivity | simpl; lia]). }
    destruct Hseg as [rest [Hseg Hlen]].
    exists (set_order (missing_models df variable)), rest.
    split; [ | split; [ | split; [exact Hseg | split; [exact Hlen | ]]]].
    + apply (Permutation_NoDup
               (Permutation_sym (set_order_perm (missing_models df variable)))).
      apply missing_models_NoDup.
    + intros m. rewrite <- missing_models_In. split.
      * apply Permutation_in, set_order_perm.
      * apply Permutation_in, Permutation_sym, set_order_perm.
    + right. apply in_or_app. left. apply in_flat_map.
      exists variable. split; [exact Hkey | ].
      rewrite Hseg. now left.
Qed.

(** C10: on a dataframe without rows [validate_required_variables] returns
    true and writes its two debug records only, whatever the configuration
    marks as required, whereas [validate_region_mappings] returns false on
    the same dataframe and writes a warning. *)
Theorem validate_required_variables_empty (fs : filesystem)
    (region_mapping_path : string) :
  validate_required_variables set_order [] variable_config =
    (true, [ (DEBUG, "Start required variables validation");
             (DEBUG, "Finish required variables validation") ]) /\
  (forall r,
     In r (snd (validate_required_variables set_order [] variable_config)) ->
     fst r <> WARNING) /\
  validate_region_mappings set_order fs [] region_mapping_path =
    (false, [ (WARNING, "No models to process!") ]).
Proof.
  assert (Hloop : forall vars valid,
            for_each vars
              (check_required_variable set_order [] variable_config
                 (set_of (unique (map Col.scenario [])))
                 (set_of (unique (map Col.model []))))
              valid = (valid, [])).
  { induction vars as [|v rest IH]; intros valid; cbn [for_each].
    - reflexivity.
    - rewrite bind_pair, IH.
      unfold check_required_variable.
      destruct (match dict_get variable_config v with
                | Some entry => match Cfg.required entry with
                                | Some b => b
                                | None => false
                                end
                | None => false
                end); reflexivity. }
  assert (Hres : validate_required_variables set_order [] variable_config =
                 (true, [ (DEBUG, "Start required variables validation");
                          (DEBUG, "Finish required variables validation") ])).
  { unfold validate_required_variables. rewrite Hloop. reflexivity. }
  split; [exact Hres | split; [ | reflexivity]].
  rewrite Hres. cbn [snd].
  intros r [<- | [<- | []]]; discriminate.
Qed.

End RequiredVariables.

Lemma validate_required_variables_spec_witness :
  ~ has_model_row sample_timeseries "Emissions|CO2" "invalid_model" /\
  exists models,
    In "invalid_model" models /\
    In (WARNING,
        "Following models miss required variable Emissions|CO2: "
        ++ join ", " models)
       (snd (validate_required_variables insertion_order sample_timeseries
               sample_variable_config)).
Proof.
  assert (Hmiss : ~ has_model_row sample_timeseries "Emissions|CO2"
                      "invalid_model").
  { intros [r [Hr [Hv Hm]]]. simpl in Hr.
    destruct Hr as [<- | [<- | [<- | []]]]; discriminate. }
  split; [exact Hmiss | ].
  destruct (proj1 (proj2 (validate_required_variables_spec
                            insertion_order insertion_order_perm
                            sample_timeseries sample_variable_config))
              "Emissions|CO2" (Cfg.mk_entry "Mt CO2/yr" (Some true))
              "invalid_model" eq_refl eq_refl
              ltac:(simpl; auto) Hmiss)
    as [models [rest [_ [Hchar [_ [_ Hlog]]]]]].
  exists models. split; [ | exact Hlog].
  apply Hchar. split; [simpl; auto | exact Hmiss].
Defined.

(** ** get_region_mapping *)

Lemma prefix_app (s t : string) : prefix s (s ++ t) = true.
Proof.
  induction s as [|a s IH]; simpl.
  - now destruct t.
  - destruct (ascii_dec a a) as [_ | Hne]; [exact IH | now contradiction Hne].
Qed.

Lemma contains_of_prefix (sub s : string) :
  prefix sub s = true -> contains sub s = true.
Proof. intros H. destruct s; cbn [contains]; now rewrite H. Qed.

Lemma contains_append_left (sub before s : string) :
  contains sub s = true -> contains sub (before ++ s) = true.
Proof.
  intros H. induction before as [|c before IH].
  - exact H.
  - cbn [append contains]. rewrite IH.
    now destruct (prefix sub (String c (before ++ s))).
Qed.

Lemma mapping_not_found_message_names (model mappings_path : string) :
  contains model (mapping_not_found_message model mappings_path) = true /\
  contains mappings_path (mapping_not_found_message model mappings_path)
  = true.
Proof.
  unfold mapping_not_found_message. split.
  - do 2 apply contains_append_left.
    apply contains_of_prefix, prefix_app.
  - do 6 apply contains_append_left.
    apply contains_of_prefix, prefix_app.
Qed.

(** The test that the loop of [get_region_mapping] makes on one entry. *)
Lemma declares_model_test (model : string) (e : string * Doc.region_mapping) :
  (endswith (fst e) ".yaml" || endswith (fst e) ".yml")
  && match Doc.model (snd e) with
     | Some m => m =? model
     | None => false
     end = true
  <-> declares_model model e.
Proof.
  unfold declares_model. rewrite andb_true_iff, orb_true_iff.
  apply Morphisms_Prop.and_iff_morphism; [reflexivity | ].
  destruct (Doc.model (snd e)) as [m|].
  - rewrite String.eqb_eq. split; [now intros -> | now intros [= ->]].
  - split; discriminate.
Qed.

Lemma search_region_mapping_step (name : string) (doc : Doc.region_mapping)
    (rest : directory) (model : string) :
  search_region_mapping ((name, doc) :: rest) model =
  if (endswith name ".yaml" || endswith name ".yml")
     && match Doc.model doc with
        | Some m => m =? model
        | None => false
        end
  then Some doc
  else search_region_mapping rest model.
Proof.
  cbn [search_region_mapping].
  destruct (endswith name ".yaml" || endswith name ".yml");
    cbn [andb]; reflexivity.
Qed.

Lemma search_region_mapping_none (entries : directory) (model : string) :
  search_region_mapping entries model = None <->
  ~ exists e, In e entries /\ declares_model model e.
Proof.
  induction entries as [|[name doc] rest IH].
  - split; [intros _ [e [[] _]] | reflexivity].
  - rewrite search_region_mapping_step.
    pose proof (declares_model_test model (name, doc)) as Htest.
    cbn [fst snd] in Htest.
    destruct ((endswith name ".yaml" || endswith name ".yml")
              && match Doc.model doc with
                 | Some m => m =? model
                 | None => false
                 end).
    + split; [discriminate | ].
      intros H. exfalso. apply H. exists (name, doc).
      split; [now left | now apply Htest].
    + rewrite IH. split.
      * intros H [e [[<- | He] Hd]].
        -- apply Htest in Hd. discriminate.
        -- apply H. now exists e.
      * intros H [e [He Hd]]. apply H. exists e. split; [now right | exact Hd].
Qed.

Lemma search_region_mapping_first (entries : directory) (model : string) :
  (exists e, In e entries /\ declares_model model e) ->
  exists before e1 after,
    entries = (before ++ e1 :: after)%list /\
    declares_model model e1 /\
    (forall e', In e' before -> ~ declares_model model e') /\
    search_region_mapping entries model = Some (snd e1).
Proof.
  induction entries as [|[name doc] rest IH].
  - intros [e [[] _]].
  - intros Hex. rewrite search_region_mapping_step.
    pose proof (declares_model_test model (name, doc)) as Htest.
    cbn [fst snd] in Htest.
    destruct ((endswith name ".yaml" || endswith name ".yml")
              && match Doc.model doc with
                 | Some m => m =? model
                 | None => false
                 end).
    + exists [], (name, doc), rest.
      split; [reflexivity | ]. split; [now apply Htest | ].
      split; [intros e' [] | reflexivity].
    + destruct IH as [before [e1 [after [Heq [Hd [Hbefore Hfound]]]]]].
      { destruct Hex as [e [[<- | He] Hd]].
        - apply Htest in Hd. discriminate.
        - now exists e. }
      exists ((name, doc) :: before), e1, after.
      split; [now rewrite Heq | ]. split; [exact Hd | ].
      split; [ | exact Hfound].
      intros e' [<- | He'].
      * intros Hd'. apply Htest in Hd'. discriminate.
      * now apply Hbefore.
Qed.

(** C6: when the path is not a directory [get_region_mapping] logs and
    raises the configuration error for the missing directory.  Otherwise it
    raises the configuration error whose message names the model and the
    path exactly when no entry of the directory with the extension .yaml or
    .yml holds a document whose model is the requested one, and when there
    is such an entry it returns the document of the first one in the order
    of the listing. *)
Theorem get_region_mapping_spec (fs : filesystem)
    (mappings_path model : string) :
  match fs mappings_path with
  | None =>
      get_region_mapping fs mappings_path model =
      (Raise (IxmpServerWorkflowError
                (directory_missing_message mappings_path)),
       [(ERROR, directory_missing_message mappings_path)])
  | Some entries =>
      (fst (get_region_mapping fs mappings_path model) =
         Raise (IxmpServerWorkflowError
                  (mapping_not_found_message model mappings_path))
       <-> ~ exists e, In e entries /\ declares_model model e) /\
      contains model (mapping_not_found_message model mappings_path) = true /\
      contains mappings_path (mapping_not_found_message model mappings_path)
        = true /\
      ((exists e, In e entries /\ declares_model model e) ->
       exists before e1 after,
         entries = (before ++ e1 :: after)%list /\
         declares_model model e1 /\
         (forall e', In e' before -> ~ declares_model model e') /\
         get_region_mapping fs mappings_path model = (Return (snd e1), []))
  end.
Proof.
  unfold get_region_mapping.
  destruct (fs mappings_path) as [entries|]; [ | reflexivity].
  destruct (mapping_not_found_message_names model mappings_path)
    as [Hmodel Hpath].
  split; [ | split; [exact Hmodel | split; [exact Hpath | ]]].
  - rewrite <- search_region_mapping_none.
    destruct (search_region_mapping entries model); cbn [fst ret].
    + split; discriminate.
    + split; reflexivity.
  - intros Hex.
    destruct (search_region_mapping_first entries model Hex)
      as [before [e1 [after [Heq [Hd [Hbefore Hfound]]]]]].
    exists before, e1, after. rewrite Hfound.
    split; [exact Heq | split; [exact Hd | split; [exact Hbefore | ]]].
    reflexivity.
Qed.

(** ** validate_region_mappings *)

Section RegionMappings.

Variable set_order : list string -> list string.
Variable fs : filesystem.
Variable df : DataFrame.
Variable region_mapping_path : string.

(** What the body of the loop returns and logs for one model. *)
Lemma check_model_regions_out (model : string) (valid : bool) :
  check_model_regions set_order fs df region_mapping_path model valid =
  match fst (get_region_mapping fs region_mapping_path model) with
  | Raise err =>
      (false,
       (snd (get_region_mapping fs region_mapping_path model)
        ++ [(ERROR, exn_str err)])%list)
  | Return mapping =>
      if (0 <? List.length (unknown_regions df mapping model))%nat
      then (false,
            (snd (get_region_mapping fs region_mapping_path model)
             ++ [(WARNING,
                  ("Model " ++ model ++ " contains unknown region names: "
                   ++ join ", "
                        (set_order (unknown_regions df mapping model)))
                  %string)])%list)
      else (valid, snd (get_region_mapping fs region_mapping_path model))
  end.
Proof.
  unfold check_model_regions. rewrite bind_pair.
  destruct (fst (get_region_mapping fs region_mapping_path model))
    as [mapping | err].
  - fold (unknown_regions df mapping model).
    destruct (0 <? List.length (unknown_regions df mapping model))%nat.
    + rewrite bind_pair. reflexivity.
    + cbn [ret fst snd]. now rewrite app_nil_r.
  - rewrite bind_pair. reflexivity.
Qed.

Lemma check_model_regions_fst (model : string) (valid : bool) :
  fst (check_model_regions set_order fs df region_mapping_path model valid) =
  valid && model_ok fs df region_mapping_path model.
Proof.
  rewrite check_model_regions_out. unfold model_ok.
  destruct (fst (get_region_mapping fs region_mapping_path model))
    as [mapping | err]; cbn [fst].
  - destruct (0 <? List.length (unknown_regions df mapping model))%nat;
      cbn [fst negb].
    + now rewrite andb_false_r.
    + now rewrite andb_true_r.
  - now rewrite andb_false_r.
Qed.

Lemma check_model_regions_log_indep (model : string) (v1 v2 : bool) :
  snd (check_model_regions set_order fs df region_mapping_path model v1) =
  snd (check_model_regions set_order fs df region_mapping_path model v2).
Proof.
  rewrite !check_model_regions_out.
  destruct (fst (get_region_mapping fs region_mapping_path model))
    as [mapping | err]; [ | reflexivity].
  now destruct (0 <? List.length (unknown_regions df mapping model))%nat.
Qed.

(** The value of the function and everything it logs. *)
Lemma validate_region_mappings_out :
  validate_region_mappings set_order fs df region_mapping_path =
  (negb (List.length (unique (map Col.model df)) =? 0)%nat
     && forallb (model_ok fs df region_mapping_path)
          (unique (map Col.model df)),
   ((if (List.length (unique (map Col.model df)) =? 0)%nat
     then [(WARNING, "No models to process!")]
     else [])
    ++ flat_map
         (fun model =>
            snd (check_model_regions set_order fs df region_mapping_path
                   model true))
         (unique (map Col.model df)))%list).
Proof.
  unfold validate_region_mappings. rewrite bind_pair.
  rewrite for_each_fst.
  rewrite (for_each_snd _ _ _ true)
    by (intros; apply check_model_regions_log_indep).
  rewrite (fold_flag _ _ _ _ (fun x v => check_model_regions_fst x v)).
  destruct (List.length (unique (map Col.model df)) =? 0)%nat.
  - rewrite bind_pair. reflexivity.
  - reflexivity.
Qed.

Lemma unknown_regions_nil (mapping : Doc.region_mapping) (model : string) :
  unknown_regions df mapping model = [] <->
  forall r, In r df -> Col.model r = model ->
            In (Col.region r) (keys (Doc.native_regions mapping)) \/
            In (Col.region r) (keys (Doc.region_aggregation mapping)) \/
            Col.region r = "World".
Proof.
  unfold unknown_regions. rewrite set_diff_nil. split.
  - intros H r Hr Hm.
    assert (Hin : In (Col.region r)
                     (set_of (keys (Doc.native_regions mapping)
                              ++ keys (Doc.region_aggregation mapping)
                              ++ ["World"]))).
    { apply H, set_of_unique_In, in_map, filter_In.
      split; [exact Hr | now apply String.eqb_eq]. }
    unfold set_of in Hin. apply (proj1 (unique_In _ _)) in Hin.
    apply in_app_or in Hin.
    destruct Hin as [Hin | Hin]; [now left | right].
    apply in_app_or in Hin.
    destruct Hin as [Hin | [Hin | []]]; [now left | now right].
  - intros H x Hx. apply set_of_unique_In, in_map_iff in Hx.
    destruct Hx as [r [<- Hr]]. apply filter_In in Hr.
    destruct Hr as [Hr Hm]. apply String.eqb_eq in Hm.
    unfold set_of. apply (proj2 (unique_In _ _)). apply in_or_app.
    destruct (H r Hr Hm) as [Hin | [Hin | Hin]].
    + now left.
    + right. apply in_or_app. now left.
    + right. apply in_or_app. right. rewrite Hin. now left.
Qed.

(** C2: [validate_region_mappings] returns true exactly when the dataframe
    has some model and, for every model of the dataframe, the region mapping
    is found and every region on the rows of that model is a key of its
    native regions, a key of its region aggregation, or "World". *)
Theorem validate_region_mappings_true_iff :
  fst (validate_region_mappings set_order fs df region_mapping_path) = true <->
  (exists model, In model (unique (map Col.model df))) /\
  (forall model,
     In model (unique (map Col.model df)) ->
     exists mapping,
       fst (get_region_mapping fs region_mapping_path model) = Return mapping /\
       forall r, In r df -> Col.model r = model ->
                 In (Col.region r) (keys (Doc.native_regions mapping)) \/
                 In (Col.region r) (keys (Doc.region_aggregation mapping)) \/
                 Col.region r = "World").
Proof.
  rewrite validate_region_mappings_out. cbn [fst].
  rewrite andb_true_iff, forallb_forall.
  apply Morphisms_Prop.and_iff_morphism.
  - destruct (unique (map Col.model df)) as [|m ms]; cbn.
    + split; [discriminate | intros [model []]].
    + split; [intros _; exists m; now left | reflexivity].
  - split.
    + intros H model Hmodel. specialize (H model Hmodel).
      unfold model_ok in H.
      destruct (fst (get_region_mapping fs region_mapping_path model))
        as [mapping | err]; [ | discriminate].
      exists mapping. split; [reflexivity | ].
      apply unknown_regions_nil.
      now apply negb_true_iff, length_pos_false in H.
    + intros H model Hmodel.
      destruct (H model Hmodel) as [mapping [Hget Hregions]].
      unfold model_ok. rewrite Hget.
      apply negb_true_iff, length_pos_false.
      now apply unknown_regions_nil.
Qed.

(** C5: when resolving the mapping of some model of the dataframe raises
    the configuration error, the error is logged after whatever the resolver
    logged itself, the function returns false, and the log carries, before
    and after that record, what the loop body writes for each of the other
    models: the loop goes on to every remaining model. *)
Theorem configuration_error_is_caught (before after : list string)
    (model : string) (err : exn) (resolver_log : list record) :
  unique (map Col.model df) = (before ++ model :: after)%list ->
  get_region_mapping fs region_mapping_path model = (Raise err, resolver_log) ->
  let res := validate_region_mappings set_order fs df region_mapping_path in
  let per_model m :=
    snd (check_model_regions set_order fs df region_mapping_path m true) in
  fst res = false /\
  In (ERROR, exn_str err) (snd res) /\
  snd res =
    (flat_map per_model before
     ++ (resolver_log ++ [(ERROR, exn_str err)])
     ++ flat_map per_model after)%list.
Proof.
  intros Hmodels Hraise res per_model. subst res.
  rewrite validate_region_mappings_out. cbn [fst snd].
  fold per_model. rewrite Hmodels.
  assert (Hbody : per_model model
                  = (resolver_log ++ [(ERROR, exn_str err)])%list).
  { unfold per_model. rewrite check_model_regions_out, Hraise. reflexivity. }
  assert (Hnonempty : (List.length (before ++ model :: after) =? 0)%nat
                      = false).
  { rewrite length_app. cbn [List.length]. apply Nat.eqb_neq. lia. }
  rewrite Hnonempty. cbn [negb andb app].
  rewrite flat_map_app. cbn [flat_map]. rewrite Hbody.
  split; [ | split; [ | reflexivity]].
  - rewrite forallb_app. cbn [forallb].
    unfold model_ok at 2. rewrite Hraise. cbn [fst andb].
    now rewrite andb_false_r.
  - apply in_or_app. right. apply in_or_app. left.
    apply in_or_app. right. now left.
Qed.

(** C7: on a dataframe with zero rows, hence without models,
    [validate_region_mappings] returns false, and what it logs is the
    warning "No models to process!": the empty input fails. *)
Theorem validate_region_mappings_empty :
  List.length df = 0%nat ->
  validate_region_mappings set_order fs df region_mapping_path =
  (false, [ (WARNING, "No models to process!") ]).
Proof.
  intros Hrows. destruct df as [|r rest]; [reflexivity | discriminate].
Qed.

End RegionMappings.

Lemma validate_region_mappings_empty_witness :
  List.length (@nil Col.row) = 0%nat /\
  validate_region_mappings insertion_order sample_filesystem []
    "region_mapping" =
  (false, [ (WARNING, "No models to process!") ]).
Proof.
  split; [reflexivity | ].
  apply (validate_region_mappings_empty insertion_order sample_filesystem []
           "region_mapping").
  reflexivity.
Defined.

Lemma configuration_error_is_caught_witness :
  unique (map Col.model (rev sample_timeseries)) = ["invalid_model"; "model"] /\
  fst (validate_region_mappings insertion_order sample_filesystem
         (rev sample_timeseries) "region_mapping") = false /\
  snd (validate_region_mappings insertion_order sample_filesystem
         (rev sample_timeseries) "region_mapping") =
    [ (ERROR, mapping_not_found_message "invalid_model" "region_mapping");
      (WARNING, "Model model contains unknown region names: Unknown country") ].
Proof.
  split; [reflexivity | ].
  pose proof (configuration_error_is_caught
                insertion_order sample_filesystem (rev sample_timeseries)
                "region_mapping" [] ["model"] "invalid_model"
                (IxmpServerWorkflowError
                   (mapping_not_found_message "invalid_model"
                      "region_mapping"))
                [] eq_refl eq_refl) as H.
  cbv zeta in H. destruct H as [Hvalue [_ Hlog]].
  split; [exact Hvalue | ].
  rewrite Hlog. reflexivity.
Defined.

(** * Further properties *)

(** ** log_validation_errors: bounds *)

Lemma slice_to_In {A} (xs : list A) (stop : Z) (x : A) :
  In x (slice_to xs stop) -> In x xs.
Proof.
  assert (Hfirst : forall n, In x (firstn n xs) -> In x xs).
  { intros n Hx. rewrite <- (firstn_skipn n xs). apply in_or_app. now left. }
  unfold slice_to. destruct (stop <? 0)%Z; apply Hfirst.
Qed.

(** X1: with a limit that is not negative the reporter never writes more
    than [limit + 2] records (heading, at most [limit] bullets, summary),
    and every record carries the level it was called with. *)
Theorem log_validation_errors_bounded (heading : string) (es : list string)
    (lvl : level) (limit : Z) :
  (0 <= limit)%Z ->
  (Z.of_nat (List.length (snd (log_validation_errors heading es lvl limit)))
   <= limit + 2)%Z /\
  (forall r, In r (snd (log_validation_errors heading es lvl limit)) ->
             fst r = lvl).
Proof.
  intros Hlimit. rewrite log_validation_errors_out. cbn [snd]. split.
  - cbn [List.length]. rewrite length_app, length_map.
    rewrite slice_to_nonneg by assumption.
    pose proof (firstn_le_length
                  (Z.to_nat (Z.min (Z.of_nat (List.length es)) limit)) es)
      as Hshown.
    destruct (Z.gtb_spec (Z.of_nat (List.length es)) limit) as [Hgt | Hle];
      cbn [List.length]; lia.
  - intros r [<- | Hr]; [reflexivity | ].
    apply in_app_or in Hr. destruct Hr as [Hr | Hr].
    + apply in_map_iff in Hr. destruct Hr as [e [<- _]]. reflexivity.
    + destruct (Z.of_nat (List.length es) >? limit)%Z;
        [destruct Hr as [<- | []]; reflexivity | destruct Hr].
Qed.

Lemma log_validation_errors_bounded_witness :
  (0 <= 2)%Z /\
  (Z.of_nat (List.length
               (snd (log_validation_errors "Unknown variable(s)"
                       ["a"; "b"; "c"; "d"; "e"] WARNING 2)))
   <= 2 + 2)%Z.
Proof.
  assert (Hlimit : (0 <= 2)%Z) by lia.
  split; [exact Hlimit | ].
  exact (proj1 (log_validation_errors_bounded "Unknown variable(s)"
                  ["a"; "b"; "c"; "d"; "e"] WARNING 2 Hlimit)).
Defined.

(** X2: with a negative limit the slice [errors[:limit]] keeps all but the
    last [-limit] errors, and the summary line is written whatever the
    length of the list, also for an empty one, with the count
    [len errors - limit]. *)
Theorem log_validation_errors_negative (heading : string) (es : list string)
    (lvl : level) (limit : Z) :
  (limit < 0)%Z ->
  snd (log_validation_errors heading es lvl limit) =
    ((lvl, (heading ++ ":")%string)
       :: map (fun e => (lvl, ("- " ++ e)%string))
              (firstn (Z.to_nat (Z.of_nat (List.length es) + limit)) es)
       ++ [(lvl, ("and " ++ str_of_int (Z.of_nat (List.length es) - limit)
                  ++ " more...")%string)])%list.
Proof.
  intros Hlimit. rewrite log_validation_errors_out. cbn [snd].
  unfold slice_to.
  destruct (Z.ltb_spec limit 0) as [_ | Hge]; [ | lia].
  destruct (Z.gtb_spec (Z.of_nat (List.length es)) limit) as [_ | Hle];
    [reflexivity | lia].
Qed.

Lemma log_validation_errors_negative_witness :
  (-1 < 0)%Z /\
  snd (log_validation_errors "Unknown variable(s)" [] WARNING (-1)) =
    [(WARNING, "Unknown variable(s):"); (WARNING, "and 1 more...")].
Proof.
  assert (Hlimit : (-1 < 0)%Z) by lia.
  split; [exact Hlimit | ].
  exact (log_validation_errors_negative "Unknown variable(s)" [] WARNING (-1)
           Hlimit).
Defined.

(** ** validate_allowed_scenarios: verdict and bullets *)

Section AllowedScenariosMore.

Variable set_order : list string -> list string.
Hypothesis set_order_perm : forall s, Permutation (set_order s) s.
Variable df : DataFrame.
Variable allowed_scenarios : list string.

Lemma unknown_scenarios_nil :
  set_diff (set_of (unique (map Col.scenario df))) (set_of allowed_scenarios)
  = [] <->
  forall s, In s (map Col.scenario df) -> In s allowed_scenarios.
Proof.
  rewrite set_diff_nil. unfold set_of at 2. split.
  - intros H s Hs. apply (proj1 (unique_In _ _)), H.
    now apply set_of_unique_In.
  - intros H s Hs. apply (proj2 (unique_In _ _)), H.
    now apply set_of_unique_In.
Qed.

(** X3: [validate_allowed_scenarios] returns true exactly when every
    scenario of the dataframe is in the allow-list, and it logs nothing
    exactly in that case. *)
Theorem validate_allowed_scenarios_true_iff :
  let res := validate_allowed_scenarios set_order df allowed_scenarios in
  (fst res = true <->
   forall s, In s (map Col.scenario df) -> In s allowed_scenarios) /\
  (snd res = [] <-> fst res = true).
Proof.
  intros res. subst res. rewrite validate_allowed_scenarios_out.
  rewrite <- unknown_scenarios_nil.
  destruct (set_diff (set_of (unique (map Col.scenario df)))
                     (set_of allowed_scenarios)) as [|s rest];
    cbn [List.length Nat.ltb Nat.leb fst snd].
  - split; split; reflexivity.
  - rewrite log_validation_errors_out. cbn [snd].
    split; split; discriminate.
Qed.

(** X4: a bullet of the log names a scenario of the dataframe that is not
    in the allow-list: an allowed scenario is never written as a bullet. *)
Theorem allowed_scenario_never_reported (s : string) :
  In (WARNING, "- " ++ s)
     (snd (validate_allowed_scenarios set_order df allowed_scenarios)) ->
  In s (map Col.scenario df) /\ ~ In s allowed_scenarios.
Proof.
  rewrite validate_allowed_scenarios_out.
  set (unknown := set_diff (set_of (unique (map Col.scenario df)))
                           (set_of allowed_scenarios)).
  destruct (0 <? List.length unknown)%nat; cbn [snd]; [ | intros []].
  rewrite log_validation_errors_out. cbn [snd].
  intros [Hhead | Hrest]; [discriminate Hhead | ].
  apply in_app_or in Hrest. destruct Hrest as [Hbullet | Hsummary].
  - apply in_map_iff in Hbullet. destruct Hbullet as [e [He Hin]].
    unfold bullet in He. cbn in He. injection He as ->.
    apply slice_to_In in Hin.
    apply (Permutation_in _ (set_order_perm unknown)) in Hin.
    unfold unknown in Hin. apply set_diff_In in Hin.
    destruct Hin as [Hdf Hallowed]. split.
    + now apply set_of_unique_In.
    + intros Hs. apply Hallowed. unfold set_of.
      now apply (proj2 (unique_In _ _)).
  - destruct (Z.of_nat (List.length (set_order unknown)) >? default_limit)%Z;
      [destruct Hsummary as [Hs | []]; discriminate Hs | destruct Hsummary].
Qed.

End AllowedScenariosMore.

Lemma allowed_scenario_never_reported_witness :
  In (WARNING, "- invalid_scenario")
     (snd (validate_allowed_scenarios insertion_order sample_timeseries
             ["valid_scenario"])) /\
  ~ In "invalid_scenario" ["valid_scenario"].
Proof.
  assert (Hlog : In (WARNING, "- " ++ "invalid_scenario")
                    (snd (validate_allowed_scenarios insertion_order
                            sample_timeseries ["valid_scenario"])))
    by (vm_compute; auto).
  split; [exact Hlog | ].
  exact (proj2 (allowed_scenario_never_reported
                  insertion_order insertion_order_perm sample_timeseries
                  ["valid_scenario"] "invalid_scenario" Hlog)).
Defined.

(** ** validate_variables_and_units: what is reported *)

Lemma warns_In (out : list record) (r : record) :
  In r out -> fst r <> DEBUG -> warns out = true.
Proof.
  intros Hin Hlvl. unfold warns. apply existsb_exists. exists r.
  split; [exact Hin | ]. destruct (fst r); [now contradiction Hlvl | | ];
    reflexivity.
Qed.

Lemma warns_app (out1 out2 : list record) :
  warns (out1 ++ out2) = warns out1 || warns out2.
Proof. apply existsb_app. Qed.

Lemma log_validation_errors_warns (message : string) (errors : list string)
    (limit : Z) :
  warns (snd (log_validation_errors message errors WARNING limit)) = true.
Proof. now rewrite log_validation_errors_out. Qed.

Lemma mismatched_units_In (df : DataFrame) (variable unit u : string) :
  In u (mismatched_units df variable unit) <->
  u <> unit /\
  exists r, In r df /\ Col.variable r = variable /\ Col.unit r = u.
Proof.
  unfold mismatched_units. rewrite unique_In, in_map_iff. split.
  - intros [r [Hu Hr]]. apply filter_In in Hr. destruct Hr as [Hr Hcond].
    apply andb_true_iff in Hcond. destruct Hcond as [Hv Hne].
    apply String.eqb_eq in Hv. apply negb_true_iff, String.eqb_neq in Hne.
    split; [congruence | now exists r].
  - intros [Hne [r [Hr [Hv Hu]]]]. exists r. split; [exact Hu | ].
    apply filter_In. split; [exact Hr | ].
    apply andb_true_iff. split; [now apply String.eqb_eq | ].
    apply negb_true_iff, String.eqb_neq. congruence.
Qed.

Lemma unit_mismatch_report_nil (df : DataFrame)
    (variable_config : VariableConfig) (variable : string) :
  unit_mismatch_report df variable_config variable = [] <->
  forall entry r,
    dict_get variable_config variable = Some entry ->
    In r df -> Col.variable r = variable -> Col.unit r = Cfg.unit entry.
Proof.
  unfold unit_mismatch_report.
  destruct (dict_get variable_config variable) as [entry|];
    [ | split; [discriminate | reflexivity]].
  destruct (mismatched_units df variable (Cfg.unit entry)) as [|u us] eqn:E.
  - split; [ | reflexivity]. intros _ entry' r [= <-] Hr Hv.
    destruct (string_dec (Col.unit r) (Cfg.unit entry)) as [Heq | Hne];
      [exact Heq | ].
    assert (Hin : In (Col.unit r)
                     (mismatched_units df variable (Cfg.unit entry)))
      by (apply mismatched_units_In; split; [exact Hne | now exists r]).
    rewrite E in Hin. destruct Hin.
  - split; [discriminate | ]. intros H. exfalso.
    assert (Hin : In u (mismatched_units df variable (Cfg.unit entry)))
      by (rewrite E; now left).
    apply mismatched_units_In in Hin.
    destruct Hin as [Hne [r [Hr [Hv Hu]]]].
    apply Hne. rewrite <- Hu. now apply (H entry r).
Qed.

Lemma unit_mismatch_batch_length (df : DataFrame)
    (variable_config : VariableConfig) (vars : list string) :
  (List.length (flat_map (unit_mismatch_report df variable_config) vars)
   <= List.length vars)%nat.
Proof.
  induction vars as [|v rest IH]; cbn [flat_map List.length]; [lia | ].
  rewrite length_app.
  assert (Hone : (List.length (unit_mismatch_report df variable_config v)
                  <= 1)%nat).
  { unfold unit_mismatch_report.
    destruct (dict_get variable_config v) as [entry|]; [ | simpl; lia].
    destruct (mismatched_units df v (Cfg.unit entry)); simpl; lia. }
  lia.
Qed.

Section VariablesAndUnitsMore.

Variable set_order : list string -> list string.
Hypothesis set_order_perm : forall s, Permutation (set_order s) s.
Variable df : DataFrame.
Variable variable_config : VariableConfig.

(** X5: [validate_variables_and_units] returns false exactly when it writes
    a warning; when it returns true the log holds its two debug records
    only. *)
Theorem validate_variables_and_units_fails_iff_warns :
  let res := validate_variables_and_units set_order df variable_config in
  (fst res = false <-> warns (snd res) = true) /\
  (fst res = true ->
   snd res = [ (DEBUG, "Start variables/units validation");
               (DEBUG, "Finish variables/units validation") ]).
Proof.
  intros res. subst res. rewrite validate_variables_and_units_out.
  cbn [fst snd].
  destruct (0 <? List.length
                   (set_diff (set_of (unique (map Col.variable df)))
                             (set_of (keys variable_config))))%nat;
    destruct (0 <? List.length
                     (flat_map (unit_mismatch_report df variable_config)
                               (keys variable_config)))%nat;
    cbn [negb andb app].
  - split; [ | discriminate]. split; [intros _ | reflexivity].
    change (warns ([(DEBUG, "Start variables/units validation")]
                   ++ snd (log_validation_errors "Unknown variable(s)"
                             (set_order
                                (set_diff
                                   (set_of (unique (map Col.variable df)))
                                   (set_of (keys variable_config))))
                             WARNING default_limit)
                   ++ snd (log_validation_errors
                             "Unknown unit(s) for variable(s):"
                             (flat_map
                                (unit_mismatch_report df variable_config)
                                (keys variable_config))
                             WARNING default_limit)
                   ++ [(DEBUG, "Finish variables/units validation")])%list
            = true).
    rewrite !warns_app, log_validation_errors_warns.
    now rewrite orb_true_r.
  - split; [ | discriminate]. split; [intros _ | reflexivity].
    change (warns ([(DEBUG, "Start variables/units validation")]
                   ++ snd (log_validation_errors "Unknown variable(s)"
                             (set_order
                                (set_diff
                                   (set_of (unique (map Col.variable df)))
                                   (set_of (keys variable_config))))
                             WARNING default_limit)
                   ++ [(DEBUG, "Finish variables/units validation")])%list
            = true).
    rewrite !warns_app, log_validation_errors_warns.
    now rewrite orb_true_r.
  - split; [ | discriminate]. split; [intros _ | reflexivity].
    change (warns ([(DEBUG, "Start variables/units validation")]
                   ++ snd (log_validation_errors
                             "Unknown unit(s) for variable(s):"
                             (flat_map
                                (unit_mismatch_report df variable_config)
                                (keys variable_config))
                             WARNING default_limit)
                   ++ [(DEBUG, "Finish variables/units validation")])%list
            = true).
    rewrite !warns_app, log_validation_errors_warns.
    now rewrite orb_true_r.
  - split; [split; discriminate | reflexivity].
Qed.

(** X6: for a configured variable that has a row with another unit, and a
    configuration of at most 100 variables, the log holds the bullet
    "- <variable>: <units>", where the units are those found on the rows of
    the variable that differ from the configured one, each once, joined by
    commas; this holds whether or not unknown variables were found. *)
Theorem unit_mismatch_bullet (variable : string) (entry : Cfg.entry)
    (r0 : Col.row) :
  dict_get variable_config variable = Some entry ->
  In r0 df -> Col.variable r0 = variable -> Col.unit r0 <> Cfg.unit entry ->
  (List.length (keys variable_config) <= 100)%nat ->
  exists units,
    NoDup units /\
    (forall u, In u units <->
               u <> Cfg.unit entry /\
               exists r, In r df /\ Col.variable r = variable
                         /\ Col.unit r = u) /\
    In (WARNING, "- " ++ variable ++ ": " ++ join ", " units)
       (snd (validate_variables_and_units set_order df variable_config)).
Proof.
  intros Hget Hr0 Hv0 Hu0 Hsmall.
  exists (mismatched_units df variable (Cfg.unit entry)).
  split; [apply unique_NoDup | ].
  split; [intros u; apply mismatched_units_In | ].
  set (units := mismatched_units df variable (Cfg.unit entry)).
  set (batch := flat_map (unit_mismatch_report df variable_config)
                         (keys variable_config)).
  assert (Hunits : In (Col.unit r0) units)
    by (apply mismatched_units_In; split; [exact Hu0 | now exists r0]).
  assert (Hbatch : In (variable ++ ": " ++ join ", " units) batch).
  { apply in_flat_map. exists variable. split.
    - apply dict_get_keys. now exists entry.
    - unfold unit_mismatch_report. rewrite Hget. fold units.
      destruct units as [|u us]; [destruct Hunits | now left]. }
  assert (Hpos : (0 <? List.length batch)%nat = true).
  { apply length_pos_true. intros E. now rewrite E in Hbatch. }
  rewrite validate_variables_and_units_out. cbn [snd]. fold batch.
  rewrite Hpos. rewrite (log_validation_errors_out _ batch). cbn [snd].
  right. apply in_or_app. right. apply in_or_app. left.
  right. apply in_or_app. left.
  rewrite slice_to_all.
  - apply (in_map (bullet WARNING) _ _ Hbatch).
  - pose proof (unit_mismatch_batch_length df variable_config
                  (keys variable_config)) as Hlen.
    fold batch in Hlen. unfold default_limit. lia.
Qed.

(** X7: a variable of the dataframe that is not a key of the configuration
    is written as a bullet of its own, as long as the dataframe has at most
    100 distinct variables. *)
Theorem unknown_variable_bullet (variable : string) :
  In variable (map Col.variable df) ->
  ~ In variable (keys variable_config) ->
  (List.length (unique (map Col.variable df)) <= 100)%nat ->
  In (WARNING, "- " ++ variable)
     (snd (validate_variables_and_units set_order df variable_config)).
Proof.
  intros Hdf Hkey Hsmall.
  set (unknown := set_diff (set_of (unique (map Col.variable df)))
                           (set_of (keys variable_config))).
  assert (Hin : In variable unknown).
  { apply set_diff_In. split; [now apply set_of_unique_In | ].
    intros H. apply Hkey. unfold set_of in H.
    now apply (proj1 (unique_In _ _)) in H. }
  assert (Hpos : (0 <? List.length unknown)%nat = true).
  { apply length_pos_true. intros E. now rewrite E in Hin. }
  assert (Hlen : (List.length unknown <= 100)%nat).
  { unfold unknown.
    eapply Nat.le_trans; [apply set_diff_length_le | ].
    eapply Nat.le_trans; [apply unique_length_le | exact Hsmall]. }
  rewrite validate_variables_and_units_out. cbn [snd]. fold unknown.
  rewrite Hpos. rewrite (log_validation_errors_out _ (set_order unknown)).
  cbn [snd].
  right. apply in_or_app. left. right. apply in_or_app. left.
  rewrite slice_to_all.
  - apply (in_map (bullet WARNING) _ variable).
    now apply (Permutation_in _ (Permutation_sym (set_order_perm unknown))).
  - rewrite (Permutation_length (set_order_perm unknown)).
    unfold default_limit. lia.
Qed.

End VariablesAndUnitsMore.

Lemma unit_mismatch_bullet_witness :
  exists units,
    In "kt CO2/yr" units /\
    In (WARNING, "- Emissions|CO2: " ++ join ", " units)
       (snd (validate_variables_and_units insertion_order sample_timeseries
               sample_variable_config)).
Proof.
  destruct (unit_mismatch_bullet insertion_order sample_timeseries
              sample_variable_config "Emissions|CO2"
              (Cfg.mk_entry "Mt CO2/yr" (Some true))
              (Col.mk_row "model" "invalid_scenario" "Unknown country"
                 "Emissions|CO2" "kt CO2/yr")
              eq_refl ltac:(simpl; auto) eq_refl ltac:(discriminate)
              ltac:(simpl; lia))
    as [units [_ [Hchar Hlog]]].
  exists units. split; [ | exact Hlog].
  apply Hchar. split; [discriminate | ].
  exists (Col.mk_row "model" "invalid_scenario" "Unknown country"
            "Emissions|CO2" "kt CO2/yr").
  simpl. auto.
Defined.

Lemma unknown_variable_bullet_witness :
  ~ In "Emissions|CH4" (keys sample_variable_config) /\
  In (WARNING, "- Emissions|CH4")
     (snd (validate_variables_and_units insertion_order sample_timeseries
             sample_variable_config)).
Proof.
  assert (Hkey : ~ In "Emissions|CH4" (keys sample_variable_config))
    by (simpl; intros [H | []]; discriminate H).
  split; [exact Hkey | ].
  apply (unknown_variable_bullet insertion_order insertion_order_perm
           sample_timeseries sample_variable_config "Emissions|CH4").
  - simpl. auto.
  - exact Hkey.
  - simpl. lia.
Defined.

(** ** Removing rows *)

Lemma validate_allowed_scenarios_value
    (set_order : list string -> list string) (df : DataFrame)
    (allowed_scenarios : list string) :
  fst (validate_allowed_scenarios set_order df allowed_scenarios) = true <->
  forall s, In s (map Col.scenario df) -> In s allowed_scenarios.
Proof.
  rewrite validate_allowed_scenarios_out, <- unknown_scenarios_nil.
  destruct (set_diff (set_of (unique (map Col.scenario df)))
                     (set_of allowed_scenarios)) as [|s rest];
    cbn [List.length Nat.ltb Nat.leb fst]; split;
    try reflexivity; discriminate.
Qed.

Lemma validate_variables_and_units_value
    (set_order : list string -> list string) (df : DataFrame)
    (variable_config : VariableConfig) :
  fst (validate_variables_and_units set_order df variable_config) = true <->
  (forall v, In v (map Col.variable df) -> In v (keys variable_config)) /\
  (forall v, In v (keys variable_config) ->
             unit_mismatch_report df variable_config v = []).
Proof.
  rewrite validate_variables_and_units_out. cbn [fst].
  rewrite andb_true_iff, !negb_true_iff, !length_pos_false.
  rewrite set_diff_nil, flat_map_nil.
  apply Morphisms_Prop.and_iff_morphism; [ | reflexivity].
  unfold set_of at 2. split.
  - intros H v Hv. apply (proj1 (unique_In _ _)), H.
    now apply set_of_unique_In.
  - intros H v Hv. apply (proj2 (unique_In _ _)), H.
    now apply set_of_unique_In.
Qed.

(** X8: a dataframe made of rows of a dataframe that passes
    [validate_allowed_scenarios], or [validate_variables_and_units], passes
    it too: dropping rows never turns these two verdicts into a failure. *)
Theorem fewer_rows_keep_validity (set_order : list string -> list string)
    (df df' : DataFrame) (allowed_scenarios : list string)
    (variable_config : VariableConfig) :
  incl df' df ->
  (fst (validate_allowed_scenarios set_order df allowed_scenarios) = true ->
   fst (validate_allowed_scenarios set_order df' allowed_scenarios) = true) /\
  (fst (validate_variables_and_units set_order df variable_config) = true ->
   fst (validate_variables_and_units set_order df' variable_config) = true).
Proof.
  intros Hincl. split.
  - rewrite !validate_allowed_scenarios_value. intros H s Hs. apply H.
    apply in_map_iff in Hs. destruct Hs as [r [<- Hr]].
    apply in_map, Hincl, Hr.
  - rewrite !validate_variables_and_units_value. intros [Hvars Hunits]. split.
    + intros v Hv. apply Hvars.
      apply in_map_iff in Hv. destruct Hv as [r [<- Hr]].
      apply in_map, Hincl, Hr.
    + intros v Hv. apply unit_mismatch_report_nil.
      intros entry r Hget Hr Hvar.
      apply (proj1 (unit_mismatch_report_nil df variable_config v)
               (Hunits v Hv) entry r Hget (Hincl r Hr) Hvar).
Qed.

Lemma fewer_rows_keep_validity_witness :
  incl (filter (fun r => Col.scenario r =? "valid_scenario") sample_timeseries)
       sample_timeseries /\
  fst (validate_allowed_scenarios insertion_order
         (filter (fun r => Col.scenario r =? "valid_scenario")
            sample_timeseries)
         ["valid_scenario"; "invalid_scenario"]) = true.
Proof.
  assert (Hincl : incl (filter (fun r => Col.scenario r =? "valid_scenario")
                          sample_timeseries) sample_timeseries)
    by apply incl_filter.
  split; [exact Hincl | ].
  apply (proj1 (fewer_rows_keep_validity insertion_order sample_timeseries _
                  ["valid_scenario"; "invalid_scenario"]
                  sample_variable_config Hincl)).
  reflexivity.
Defined.

(** ** validate_required_variables: what is reported *)

Lemma missing_scenarios_NoDup (df : DataFrame) (variable : string) :
  NoDup (missing_scenarios df variable).
Proof. apply set_diff_NoDup, unique_NoDup. Qed.

Section RequiredVariablesMore.

Variable set_order : list string -> list string.
Hypothesis set_order_perm : forall s, Permutation (set_order s) s.
Variable df : DataFrame.
Variable variable_config : VariableConfig.

(** What one variable contributes to the log, against the check made for it. *)
Lemma required_variable_report (variable : string) :
  let report :=
    snd (check_required_variable set_order df variable_config
           (set_of (unique (map Col.scenario df)))
           (set_of (unique (map Col.model df))) variable true) in
  let ok :=
    negb (is_required variable_config variable)
    || negb (0 <? List.length (missing_models df variable))%nat
       && negb (0 <? List.length (missing_scenarios df variable))%nat in
  (ok = true -> report = []) /\ (ok = false -> warns report = true).
Proof.
  intros report ok. subst report ok. rewrite check_required_variable_out.
  destruct (is_required variable_config variable); cbn [negb orb snd];
    [ | split; [reflexivity | discriminate]].
  destruct (0 <? List.length (missing_models df variable))%nat;
    destruct (0 <? List.length (missing_scenarios df variable))%nat;
    cbn [negb andb app]; split; try discriminate; reflexivity.
Qed.

Lemma required_variables_reports (vars : list string) :
  let report variable :=
    snd (check_required_variable set_order df variable_config
           (set_of (unique (map Col.scenario df)))
           (set_of (unique (map Col.model df))) variable true) in
  let ok variable :=
    negb (is_required variable_config variable)
    || negb (0 <? List.length (missing_models df variable))%nat
       && negb (0 <? List.length (missing_scenarios df variable))%nat in
  (forallb ok vars = true -> flat_map report vars = []) /\
  (forallb ok vars = false -> warns (flat_map report vars) = true).
Proof.
  intros report ok.
  induction vars as [|v rest [IHt IHf]]; cbn [forallb flat_map].
  - split; [reflexivity | discriminate].
  - destruct (required_variable_report v) as [Ht Hf].
    fold (report v) in Ht, Hf. fold (ok v) in Ht, Hf.
    destruct (ok v); cbn [andb].
    + rewrite (Ht eq_refl). cbn [app]. now split.
    + split; [discriminate | ]. intros _.
      rewrite warns_app, (Hf eq_refl). reflexivity.
Qed.

(** X9: [validate_required_variables] returns false exactly when it writes
    a warning; when it returns true the log holds its two debug records
    only. *)
Theorem validate_required_variables_fails_iff_warns :
  let res := validate_required_variables set_order df variable_config in
  (fst res = false <-> warns (snd res) = true) /\
  (fst res = true ->
   snd res = [ (DEBUG, "Start required variables validation");
               (DEBUG, "Finish required variables validation") ]).
Proof.
  intros res. subst res. rewrite validate_required_variables_out.
  cbn [fst snd].
  destruct (required_variables_reports (keys variable_config)) as [Ht Hf].
  cbv zeta in Ht, Hf.
  destruct (forallb _ (keys variable_config)).
  - rewrite (Ht eq_refl). cbn [app].
    split; [split; discriminate | reflexivity].
  - split; [ | discriminate]. split; [intros _ | reflexivity].
    change (warns ([(DEBUG, "Start required variables validation")]
                   ++ flat_map
                        (fun variable =>
                           snd (check_required_variable set_order df
                                  variable_config
                                  (set_of (unique (map Col.scenario df)))
                                  (set_of (unique (map Col.model df)))
                                  variable true))
                        (keys variable_config)
                   ++ [(DEBUG, "Finish required variables validation")])%list
            = true).
    rewrite !warns_app, (Hf eq_refl). now rewrite orb_true_r.
Qed.

(** X10: for a required variable that some scenario of the dataframe lacks,
    one warning names the variable and all the scenarios lacking it, joined
    by commas; it is the last of the at most two records that the variable
    contributes, after the warning on models if there is one. *)
Theorem missing_scenarios_warning (variable : string) (entry : Cfg.entry)
    (s0 : string) :
  dict_get variable_config variable = Some entry ->
  Cfg.required entry = Some true ->
  In s0 (map Col.scenario df) ->
  ~ has_scenario_row df variable s0 ->
  exists scenarios before,
    NoDup scenarios /\
    (forall s, In s scenarios <->
               In s (map Col.scenario df)
               /\ ~ has_scenario_row df variable s) /\
    snd (check_required_variable set_order df variable_config
           (set_of (unique (map Col.scenario df)))
           (set_of (unique (map Col.model df))) variable true) =
      (before
       ++ [(WARNING,
            ("Following scenarios miss required variable " ++ variable
             ++ ": " ++ join ", " scenarios)%string)])%list /\
    (List.length before <= 1)%nat /\
    In (WARNING,
        "Following scenarios miss required variable " ++ variable ++ ": "
        ++ join ", " scenarios)
       (snd (validate_required_variables set_order df variable_config)).
Proof.
  intros Hget Hreq Hs0 Hmiss.
  assert (Hkey : In variable (keys variable_config))
    by (apply dict_get_keys; now exists entry).
  assert (Hr : is_required variable_config variable = true)
    by (apply is_required_true; now exists entry).
  assert (Hin0 : In s0 (missing_scenarios df variable))
    by (apply missing_scenarios_In; now split).
  assert (Hpos : (0 <? List.length (missing_scenarios df variable))%nat
                 = true).
  { apply length_pos_true. intros E. now rewrite E in Hin0. }
  assert (Hseg : exists before,
             snd (check_required_variable set_order df variable_config
                    (set_of (unique (map Col.scenario df)))
                    (set_of (unique (map Col.model df))) variable true) =
               (before
                ++ [(WARNING,
                     ("Following scenarios miss required variable "
                      ++ variable ++ ": "
                      ++ join ", "
                           (set_order (missing_scenarios df variable)))
                     %string)])%list /\
             (List.length before <= 1)%nat).
  { rewrite check_required_variable_out, Hr, Hpos. cbn [snd].
    destruct (0 <? List.length (missing_models df variable))%nat;
      eexists; (split; [reflexivity | simpl; lia]). }
  destruct Hseg as [before [Hseg Hlen]].
  exists (set_order (missing_scenarios df variable)), before.
  split; [ | split; [ | split; [exact Hseg | split; [exact Hlen | ]]]].
  - apply (Permutation_NoDup
             (Permutation_sym
                (set_order_perm (missing_scenarios df variable)))).
    apply missing_scenarios_NoDup.
  - intros s. rewrite <- missing_scenarios_In. split.
    + apply Permutation_in, set_order_perm.
    + apply Permutation_in, Permutation_sym, set_order_perm.
  - rewrite validate_required_variables_out. cbn [snd].
    right. apply in_or_app. left. apply in_flat_map.
    exists variable. split; [exact Hkey | ].
    rewrite Hseg. apply in_or_app. right. now left.
Qed.

(** X11: when the configuration marks no variable as required,
    [validate_required_variables] returns true on every dataframe and
    writes its two debug records only. *)
Theorem nothing_required_passes :
  (forall variable entry,
     dict_get variable_config variable = Some entry ->
     Cfg.required entry <> Some true) ->
  validate_required_variables set_order df variable_config =
  (true, [ (DEBUG, "Start required variables validation");
           (DEBUG, "Finish required variables validation") ]).
Proof.
  intros Hnone.
  assert (Hreq : forall variable,
            is_required variable_config variable = false).
  { intros variable.
    destruct (is_required variable_config variable) eqn:E; [ | reflexivity].
    apply is_required_true in E. destruct E as [entry [Hget Hr]].
    now contradiction (Hnone variable entry Hget). }
  rewrite validate_required_variables_out. f_equal.
  - apply forallb_forall. intros v _. now rewrite Hreq.
  - f_equal.
    replace (flat_map _ (keys variable_config)) with (@nil record);
      [reflexivity | ].
    symmetry. apply flat_map_nil. intros v _.
    now rewrite check_required_variable_out, Hreq.
Qed.

End RequiredVariablesMore.

Lemma missing_scenarios_warning_witness :
  ~ has_scenario_row sample_missing_scenario "Emissions|CO2" "other_scenario"
  /\
  exists scenarios,
    In "other_scenario" scenarios /\
    In (WARNING,
        "Following scenarios miss required variable Emissions|CO2: "
        ++ join ", " scenarios)
       (snd (validate_required_variables insertion_order
               sample_missing_scenario sample_variable_config)).
Proof.
  assert (Hmiss : ~ has_scenario_row sample_missing_scenario "Emissions|CO2"
                      "other_scenario").
  { intros [r [Hr [Hv Hs]]]. simpl in Hr.
    destruct Hr as [<- | [<- | []]]; discriminate. }
  split; [exact Hmiss | ].
  destruct (missing_scenarios_warning insertion_order insertion_order_perm
              sample_missing_scenario sample_variable_config
              "Emissions|CO2" (Cfg.mk_entry "Mt CO2/yr" (Some true))
              "other_scenario" eq_refl eq_refl ltac:(simpl; auto) Hmiss)
    as [scenarios [before [_ [Hchar [_ [_ Hlog]]]]]].
  exists scenarios. split; [ | exact Hlog].
  apply Hchar. split; [simpl; auto | exact Hmiss].
Defined.

Lemma nothing_required_passes_witness :
  validate_required_variables insertion_order sample_timeseries
    [ ("Emissions|CO2", Cfg.mk_entry "Mt CO2/yr" None);
      ("Emissions|CH4", Cfg.mk_entry "Mt CH4/yr" (Some false)) ] =
  (true, [ (DEBUG, "Start required variables validation");
           (DEBUG, "Finish required variables validation") ]).
Proof.
  apply nothing_required_passes.
  intros variable entry Hget. cbn [dict_get] in Hget.
  destruct (_ =? variable) in Hget;
    [injection Hget as <-; discriminate | ].
  destruct (_ =? variable) in Hget;
    [injection Hget as <-; discriminate | discriminate].
Defined.

(** ** get_region_mapping: what is returned *)

Lemma search_region_mapping_some (entries : directory) (model : string)
    (mapping : Doc.region_mapping) :
  search_region_mapping entries model = Some mapping ->
  exists name, In (name, mapping) entries /\ declares_model model (name, mapping).
Proof.
  induction entries as [|[name doc] rest IH].
  - discriminate.
  - rewrite search_region_mapping_step.
    pose proof (declares_model_test model (name, doc)) as Htest.
    cbn [fst snd] in Htest.
    destruct ((endswith name ".yaml" || endswith name ".yml")
              && match Doc.model doc with
                 | Some m => m =? model
                 | None => false
                 end).
    + intros [= <-]. exists name. split; [now left | now apply Htest].
    + intros H. destruct (IH H) as [name' [Hin Hd]].
      exists name'. split; [now right | exact Hd].
Qed.

Lemma search_region_mapping_filter (entries : directory) (model : string) :
  search_region_mapping (filter (fun e => recognised (fst e)) entries) model =
  search_region_mapping entries model.
Proof.
  induction entries as [|[name doc] rest IH]; [reflexivity | ].
  cbn [filter fst]. rewrite (search_region_mapping_step name doc rest).
  unfold recognised at 1.
  destruct (endswith name ".yaml" || endswith name ".yml") eqn:E.
  - rewrite search_region_mapping_step, E, IH. reflexivity.
  - cbn [andb]. exact IH.
Qed.

(** X12: a mapping that [get_region_mapping] returns is the document of an
    entry of the directory with the extension .yaml or .yml, its model is the
    requested one, and nothing was logged on the way. *)
Theorem get_region_mapping_returns_declared (fs : filesystem)
    (mappings_path model : string) (mapping : Doc.region_mapping) :
  fst (get_region_mapping fs mappings_path model) = Return mapping ->
  Doc.model mapping = Some model /\
  snd (get_region_mapping fs mappings_path model) = [] /\
  exists entries name,
    fs mappings_path = Some entries /\
    In (name, mapping) entries /\
    recognised name = true.
Proof.
  unfold get_region_mapping.
  destruct (fs mappings_path) as [entries|]; [ | discriminate].
  destruct (search_region_mapping entries model) as [found|] eqn:E;
    [ | discriminate].
  cbn [ret fst snd]. intros [= <-].
  destruct (search_region_mapping_some _ _ _ E) as [name [Hin [Hext Hmodel]]].
  split; [exact Hmodel | ]. split; [reflexivity | ].
  exists entries, name. split; [reflexivity | ]. split; [exact Hin | ].
  unfold recognised. now apply orb_true_iff.
Qed.

Lemma get_region_mapping_returns_declared_witness :
  fst (get_region_mapping sample_filesystem "region_mapping" "model")
    = Return sample_region_mapping /\
  Doc.model sample_region_mapping = Some "model".
Proof.
  assert (Hget : fst (get_region_mapping sample_filesystem "region_mapping"
                        "model") = Return sample_region_mapping)
    by reflexivity.
  split; [exact Hget | ].
  exact (proj1 (get_region_mapping_returns_declared sample_filesystem
                  "region_mapping" "model" sample_region_mapping Hget)).
Defined.

(** X13: the files of the directory without the extension .yaml or .yml
    have no influence on what [get_region_mapping] returns, raises or logs. *)
Theorem get_region_mapping_ignores_other_files (fs : filesystem)
    (mappings_path model : string) :
  get_region_mapping (only_recognised fs) mappings_path model =
  get_region_mapping fs mappings_path model.
Proof.
  unfold get_region_mapping, only_recognised.
  destruct (fs mappings_path) as [entries|]; cbn [option_map];
    [ | reflexivity].
  now rewrite search_region_mapping_filter.
Qed.

(** ** validate_region_mappings: what is reported *)

Lemma get_region_mapping_quiet (fs : filesystem)
    (mappings_path model : string) (mapping : Doc.region_mapping) :
  fst (get_region_mapping fs mappings_path model) = Return mapping ->
  snd (get_region_mapping fs mappings_path model) = [].
Proof.
  unfold get_region_mapping.
  destruct (fs mappings_path) as [entries|]; [ | discriminate].
  now destruct (search_region_mapping entries model).
Qed.

Lemma unknown_regions_In (df : DataFrame) (mapping : Doc.region_mapping)
    (model x : string) :
  In x (unknown_regions df mapping model) <->
  (exists r, In r df /\ Col.model r = model /\ Col.region r = x) /\
  ~ In x (keys (Doc.native_regions mapping)) /\
  ~ In x (keys (Doc.region_aggregation mapping)) /\
  x <> "World".
Proof.
  unfold unknown_regions. rewrite set_diff_In, set_of_unique_In.
  unfold set_of. rewrite unique_In, in_map_iff, !in_app_iff.
  split.
  - intros [[r [Hx Hr]] Hout]. apply filter_In in Hr.
    destruct Hr as [Hr Hm]. apply String.eqb_eq in Hm.
    split; [now exists r | ].
    split; [intros H; apply Hout; now left | ].
    split; [intros H; apply Hout; right; now left | ].
    intros H. apply Hout. right. right. rewrite H. now left.
  - intros [[r [Hr [Hm Hx]]] [Hn [Ha Hw]]]. split.
    + exists r. split; [exact Hx | ]. apply filter_In.
      split; [exact Hr | now apply String.eqb_eq].
    + intros [H | [H | [H | []]]]; [now apply Hn | now apply Ha | ].
      now apply Hw.
Qed.

Section RegionMappingsMore.

Variable set_order : list string -> list string.
Hypothesis set_order_perm : forall s, Permutation (set_order s) s.
Variable fs : filesystem.
Variable df : DataFrame.
Variable region_mapping_path : string.

(** What one model contributes to the log, against the check made for it. *)
Lemma model_report (model : string) :
  let report :=
    snd (check_model_regions set_order fs df region_mapping_path model true) in
  (model_ok fs df region_mapping_path model = true -> report = []) /\
  (model_ok fs df region_mapping_path model = false -> warns report = true).
Proof.
  intros report. subst report. rewrite check_model_regions_out.
  unfold model_ok.
  destruct (fst (get_region_mapping fs region_mapping_path model))
    as [mapping | err] eqn:Hget.
  - rewrite (get_region_mapping_quiet _ _ _ _ Hget).
    destruct (0 <? List.length (unknown_regions df mapping model))%nat;
      cbn [negb snd app]; split; try discriminate; reflexivity.
  - cbn [snd]. split; [discriminate | intros _].
    rewrite warns_app. cbn. now rewrite orb_true_r.
Qed.

Lemma models_reports (models : list string) :
  let report model :=
    snd (check_model_regions set_order fs df region_mapping_path model true) in
  (forallb (model_ok fs df region_mapping_path) models = true ->
   flat_map report models = []) /\
  (forallb (model_ok fs df region_mapping_path) models = false ->
   warns (flat_map report models) = true).
Proof.
  intros report.
  induction models as [|m rest [IHt IHf]]; cbn [forallb flat_map].
  - split; [reflexivity | discriminate].
  - destruct (model_report m) as [Ht Hf]. fold (report m) in Ht, Hf.
    destruct (model_ok fs df region_mapping_path m); cbn [andb].
    + rewrite (Ht eq_refl). cbn [app]. now split.
    + split; [discriminate | ]. intros _.
      rewrite warns_app, (Hf eq_refl). reflexivity.
Qed.

(** X14: [validate_region_mappings] returns false exactly when it writes a
    warning or an error, and when it returns true it logs nothing at all. *)
Theorem validate_region_mappings_fails_iff_warns :
  let res := validate_region_mappings set_order fs df region_mapping_path in
  (fst res = false <-> warns (snd res) = true) /\
  (fst res = true -> snd res = []).
Proof.
  intros res. subst res. rewrite validate_region_mappings_out.
  cbn [fst snd].
  destruct (models_reports (unique (map Col.model df))) as [Ht Hf].
  cbv zeta in Ht, Hf.
  destruct (List.length (unique (map Col.model df)) =? 0)%nat;
    cbn [negb andb].
  - split; [ | discriminate]. split; [intros _ | reflexivity].
    now rewrite warns_app.
  - destruct (forallb _ (unique (map Col.model df))).
    + rewrite (Ht eq_refl). split; [split; discriminate | reflexivity].
    + split; [ | discriminate]. split; [intros _ | reflexivity].
      cbn [app]. exact (Hf eq_refl).
Qed.

(** X15: when the path of the mappings is not a directory,
    [validate_region_mappings] returns false, and for every model of the
    dataframe, in order of first appearance, the log holds the error of the
    missing directory twice: once written by [get_region_mapping] before it
    raises, once by the handler of the loop. *)
Theorem missing_directory_logged_twice :
  fs region_mapping_path = None ->
  validate_region_mappings set_order fs df region_mapping_path =
  (false,
   ((if (List.length (unique (map Col.model df)) =? 0)%nat
     then [(WARNING, "No models to process!")]
     else [])
    ++ flat_map
         (fun _ => [ (ERROR, directory_missing_message region_mapping_path);
                     (ERROR, directory_missing_message region_mapping_path) ])
         (unique (map Col.model df)))%list).
Proof.
  intros Hdir. rewrite validate_region_mappings_out.
  assert (Hget : forall model,
            get_region_mapping fs region_mapping_path model =
            (Raise (IxmpServerWorkflowError
                      (directory_missing_message region_mapping_path)),
             [(ERROR, directory_missing_message region_mapping_path)])).
  { intros model. unfold get_region_mapping. now rewrite Hdir. }
  f_equal.
  - destruct (unique (map Col.model df)) as [|m ms]; [reflexivity | ].
    cbn [List.length Nat.eqb negb forallb andb].
    unfold model_ok at 1. now rewrite Hget.
  - f_equal. apply flat_map_ext. intros model.
    now rewrite check_model_regions_out, Hget.
Qed.

(** X16: for a model whose mapping is found and which has a row with a
    region that is neither a key of the native regions, nor a key of the
    region aggregation, nor "World", one warning names the model and all
    such regions of its rows, each once, joined by commas. *)
Theorem unknown_regions_warning (model : string)
    (mapping : Doc.region_mapping) (r0 : Col.row) :
  fst (get_region_mapping fs region_mapping_path model) = Return mapping ->
  In r0 df -> Col.model r0 = model ->
  ~ In (Col.region r0) (keys (Doc.native_regions mapping)) ->
  ~ In (Col.region r0) (keys (Doc.region_aggregation mapping)) ->
  Col.region r0 <> "World" ->
  exists regions,
    NoDup regions /\
    (forall x, In x regions <->
               (exists r, In r df /\ Col.model r = model
                          /\ Col.region r = x) /\
               ~ In x (keys (Doc.native_regions mapping)) /\
               ~ In x (keys (Doc.region_aggregation mapping)) /\
               x <> "World") /\
    In (WARNING,
        "Model " ++ model ++ " contains unknown region names: "
        ++ join ", " regions)
       (snd (validate_region_mappings set_order fs df region_mapping_path)).
Proof.
  intros Hget Hr0 Hm0 Hn Ha Hw.
  set (unknown := unknown_regions df mapping model).
  assert (Hin0 : In (Col.region r0) unknown).
  { apply unknown_regions_In. split; [now exists r0 | now repeat split]. }
  assert (Hpos : (0 <? List.length unknown)%nat = true).
  { apply length_pos_true. intros E. now rewrite E in Hin0. }
  exists (set_order unknown).
  split; [ | split].
  - apply (Permutation_NoDup (Permutation_sym (set_order_perm unknown))).
    apply set_diff_NoDup, unique_NoDup.
  - intros x. rewrite <- unknown_regions_In. fold unknown. split.
    + apply Permutation_in, set_order_perm.
    + apply Permutation_in, Permutation_sym, set_order_perm.
  - rewrite validate_region_mappings_out. cbn [snd].
    apply in_or_app. right. apply in_flat_map. exists model. split.
    + apply unique_In. rewrite <- Hm0. now apply in_map.
    + rewrite check_model_regions_out, Hget. fold unknown. rewrite Hpos.
      cbn [snd]. apply in_or_app. right. now left.
Qed.

End RegionMappingsMore.

Lemma missing_directory_logged_twice_witness :
  sample_filesystem "no_such_directory" = None /\
  validate_region_mappings insertion_order sample_filesystem
    wrong_unit_timeseries "no_such_directory" =
  (false,
   [ (ERROR, directory_missing_message "no_such_directory");
     (ERROR, directory_missing_message "no_such_directory") ]).
Proof.
  assert (Hdir : sample_filesystem "no_such_directory" = None)
    by reflexivity.
  split; [exact Hdir | ].
  exact (missing_directory_logged_twice insertion_order sample_filesystem
           wrong_unit_timeseries "no_such_directory" Hdir).
Defined.

Lemma unknown_regions_warning_witness :
  exists regions,
    In "Unknown country" regions /\
    In (WARNING,
        "Model model contains unknown region names: " ++ join ", " regions)
       (snd (validate_region_mappings insertion_order sample_filesystem
               sample_timeseries "region_mapping")).
Proof.
  destruct (unknown_regions_warning insertion_order insertion_order_perm
              sample_filesystem sample_timeseries "region_mapping" "model"
              sample_region_mapping
              (Col.mk_row "model" "invalid_scenario" "Unknown country"
                 "Emissions|CO2" "kt CO2/yr")
              eq_refl ltac:(simpl; auto) eq_refl
              ltac:(simpl; intros [H | [H | []]]; discriminate H)
              ltac:(simpl; intros [H | []]; discriminate H)
              ltac:(discriminate))
    as [regions [_ [Hchar Hlog]]].
  exists regions. split; [ | exact Hlog].
  apply Hchar. split.
  - exists (Col.mk_row "model" "invalid_scenario" "Unknown country"
              "Emissions|CO2" "kt CO2/yr").
    simpl. auto.
  - split; [simpl; intros [H | [H | []]]; discriminate H | ].
    split; [simpl; intros [H | []]; discriminate H | discriminate].
Defined.

(** X17: when the directory exists and none of its files with a recognised
    extension declares a model of the dataframe, the loop body writes for
    that model the single error "No region mapping found for model ... in
    path ...", and the function returns false. *)
Theorem missing_mapping_logged_once
    (set_order : list string -> list string) (fs : filesystem)
    (df : DataFrame) (region_mapping_path model : string)
    (entries : directory) :
  fs region_mapping_path = Some entries ->
  (forall e, In e entries -> ~ declares_model model e) ->
  In model (map Col.model df) ->
  check_model_regions set_order fs df region_mapping_path model true =
    (false,
     [(ERROR, mapping_not_found_message model region_mapping_path)]) /\
  fst (validate_region_mappings set_order fs df region_mapping_path) = false /\
  In (ERROR, mapping_not_found_message model region_mapping_path)
     (snd (validate_region_mappings set_order fs df region_mapping_path)).
Proof.
  intros Hdir Hnone Hmodel.
  assert (Hget : get_region_mapping fs region_mapping_path model =
                 (Raise (IxmpServerWorkflowError
                           (mapping_not_found_message model
                              region_mapping_path)), [])).
  { unfold get_region_mapping. rewrite Hdir.
    assert (Hsearch : search_region_mapping entries model = None).
    { apply search_region_mapping_none. intros [e [He Hd]].
      now apply (Hnone e He). }
    now rewrite Hsearch. }
  assert (Hbody : check_model_regions set_order fs df region_mapping_path
                    model true =
                  (false,
                   [(ERROR,
                     mapping_not_found_message model region_mapping_path)])).
  { now rewrite check_model_regions_out, Hget. }
  assert (Hin : In model (unique (map Col.model df)))
    by now apply unique_In.
  split; [exact Hbody | ].
  rewrite validate_region_mappings_out. cbn [fst snd]. split.
  - apply andb_false_iff. right.
    apply not_true_is_false. intros Hall.
    rewrite forallb_forall in Hall. specialize (Hall model Hin).
    unfold model_ok in Hall. rewrite Hget in Hall. discriminate.
  - apply in_or_app. right. apply in_flat_map. exists model.
    split; [exact Hin | ]. rewrite Hbody. now left.
Qed.

Lemma missing_mapping_logged_once_witness :
  In "invalid_model" (map Col.model sample_timeseries) /\
  In (ERROR, mapping_not_found_message "invalid_model" "region_mapping")
     (snd (validate_region_mappings insertion_order sample_filesystem
             sample_timeseries "region_mapping")).
Proof.
  assert (Hmodel : In "invalid_model" (map Col.model sample_timeseries))
    by (simpl; auto).
  split; [exact Hmodel | ].
  apply (missing_mapping_logged_once insertion_order sample_filesystem
           sample_timeseries "region_mapping" "invalid_model" _ eq_refl).
  - intros e [<- | [<- | []]] [_ Hd]; discriminate Hd.
  - exact Hmodel.
Defined.

(** ** Removing rows, and the order of iteration over sets *)

Lemma model_ok_true (fs : filesystem) (df : DataFrame)
    (region_mapping_path model : string) :
  model_ok fs df region_mapping_path model = true <->
  exists mapping,
    fst (get_region_mapping fs region_mapping_path model) = Return mapping /\
    unknown_regions df mapping model = [].
Proof.
  unfold model_ok.
  destruct (fst (get_region_mapping fs region_mapping_path model))
    as [mapping | err].
  - rewrite negb_true_iff, length_pos_false. split.
    + intros H. now exists mapping.
    + intros [mapping' [[= <-] H]]. exact H.
  - split; [discriminate | intros [mapping [H _]]; discriminate].
Qed.

(** X18: a dataframe that is not empty and is made of rows of a dataframe
    that passes [validate_region_mappings] passes it too. *)
Theorem fewer_rows_keep_region_validity
    (set_order : list string -> list string) (fs : filesystem)
    (df df' : DataFrame) (region_mapping_path : string) :
  incl df' df -> df' <> [] ->
  fst (validate_region_mappings set_order fs df region_mapping_path) = true ->
  fst (validate_region_mappings set_order fs df' region_mapping_path) = true.
Proof.
  intros Hincl Hrows. rewrite !validate_region_mappings_out. cbn [fst].
  rewrite !andb_true_iff, !forallb_forall. intros [_ Hall]. split.
  - destruct df' as [|r rest]; [now contradiction Hrows | reflexivity].
  - intros model Hmodel. apply unique_In, in_map_iff in Hmodel.
    destruct Hmodel as [r [Hm Hr]].
    assert (Hin : In model (unique (map Col.model df))).
    { apply unique_In. rewrite <- Hm. apply in_map, Hincl, Hr. }
    apply model_ok_true. apply Hall, model_ok_true in Hin.
    destruct Hin as [mapping [Hget Hnil]]. exists mapping.
    split; [exact Hget | ].
    apply unknown_regions_nil. intros r' Hr' Hm'.
    apply (proj1 (unknown_regions_nil df mapping model) Hnil r'
             (Hincl r' Hr') Hm').
Qed.

Lemma fewer_rows_keep_region_validity_witness :
  incl (filter (fun r => Col.region r =? "World") sample_mapped_timeseries)
       sample_mapped_timeseries /\
  fst (validate_region_mappings insertion_order sample_filesystem
         (filter (fun r => Col.region r =? "World") sample_mapped_timeseries)
         "region_mapping") = true.
Proof.
  assert (Hincl : incl (filter (fun r => Col.region r =? "World")
                          sample_mapped_timeseries)
                       sample_mapped_timeseries)
    by apply incl_filter.
  split; [exact Hincl | ].
  apply (fewer_rows_keep_region_validity insertion_order sample_filesystem
           sample_mapped_timeseries _ "region_mapping" Hincl).
  - discriminate.
  - reflexivity.
Defined.

(** X20: keeping only the rows whose scenario is in the allow-list gives a
    dataframe that passes [validate_allowed_scenarios] and logs nothing. *)
Theorem allowed_rows_pass (set_order : list string -> list string)
    (df : DataFrame) (allowed_scenarios : list string) :
  validate_allowed_scenarios set_order
    (filter (fun r => mem (Col.scenario r) allowed_scenarios) df)
    allowed_scenarios = (true, []).
Proof.
  rewrite validate_allowed_scenarios_out.
  assert (Hnil : set_diff
                   (set_of (unique (map Col.scenario
                      (filter (fun r => mem (Col.scenario r) allowed_scenarios)
                         df))))
                   (set_of allowed_scenarios) = []).
  { apply unknown_scenarios_nil. intros s Hs.
    apply in_map_iff in Hs. destruct Hs as [r [<- Hr]].
    apply filter_In in Hr. now apply mem_In. }
  now rewrite Hnil.
Qed.

